(** * Eco Habit Tracker: the action layer over the two tables

    A shallow embedding of [src/db/tables.ts] (the two tables) and of
    [src/src/actions/index.ts] (the six actions), followed by the
    properties of the action layer.

    Conventions of the embedding.
    - A JavaScript value that may be [undefined] is an [option]; a nullable
      column is an [option] as well ([None] is SQL NULL).
    - A [Date] is its epoch time in milliseconds, a [number] a rational.
    - [async] handlers run to completion one at a time: a handler is a
      function from the world before the call to an outcome and the world
      after it.  The world holds the rows of both tables, the journal of the
      statements issued to [db], and the two sources the handlers read:
      [crypto.randomUUID()] and [new Date()]. *)

From Stdlib Require Import List String Ascii Bool Arith ZArith QArith Lia.
Import ListNotations.
Local Open Scope string_scope.
Local Open Scope list_scope.

Set Implicit Arguments.

(* ------------------------------------------------------------------ *)
(** ** JavaScript values *)

Definition Date := Z.
Definition number := Q.

(** [new Date(v)] for a value [v] of a payload, as [z.coerce.date()] computes
    it: a date, or the invalid date (for a string that is not a date, say). *)
Inductive Coerced :=
| valid_date (d : Date)
| Invalid_Date.

(** [if (s)] on a string: the empty string is falsy, every other is truthy. *)
Definition truthy (s : string) : bool := negb (String.eqb s EmptyString).

(** [if (v) { ... v ... }] on an optional string: the branch is taken, with
    the string, when it is defined and truthy. *)
Definition if_truthy (v : option string) : option string :=
  match v with
  | Some s => if truthy s then Some s else None
  | None => None
  end.

(** [a ?? b] *)
Definition nullish {A} (a : option A) (b : A) : A :=
  match a with Some v => v | None => b end.

(** A key of the object given to [.set(...)]: Drizzle's update skips the
    keys whose value is [undefined] ("values of undefined are ignored in the
    object: to set a column to null, pass null") and writes the others. *)
Definition assign {A} (v : option A) (old : A) : A :=
  match v with Some x => x | None => old end.

Definition assign_nullable {A} (v : option A) (old : option A) : option A :=
  match v with Some x => Some x | None => old end.

(* ------------------------------------------------------------------ *)
(** ** The tables ([src/db/tables.ts]) *)

Module EcoHabits.

Record row := {
  id : string;                       (* primary key *)
  userId : string;
  name : string;
  description : option string;
  category : option string;
  frequency : option string;
  targetPerPeriod : option number;
  impactPerUnit : option number;
  impactUnit : option string;
  isActive : bool;
  createdAt : Date;
  updatedAt : Date
}.

(** The object given to [db.update(EcoHabits).set(...)]: every column is
    optional in it. *)
Record values := {
  set_id : option string;
  set_userId : option string;
  set_name : option string;
  set_description : option string;
  set_category : option string;
  set_frequency : option string;
  set_targetPerPeriod : option number;
  set_impactPerUnit : option number;
  set_impactUnit : option string;
  set_isActive : option bool;
  set_createdAt : option Date;
  set_updatedAt : option Date
}.

Definition apply (s : values) (r : row) : row :=
  {| id := assign (set_id s) (id r);
     userId := assign (set_userId s) (userId r);
     name := assign (set_name s) (name r);
     description := assign_nullable (set_description s) (description r);
     category := assign_nullable (set_category s) (category r);
     frequency := assign_nullable (set_frequency s) (frequency r);
     targetPerPeriod := assign_nullable (set_targetPerPeriod s) (targetPerPeriod r);
     impactPerUnit := assign_nullable (set_impactPerUnit s) (impactPerUnit r);
     impactUnit := assign_nullable (set_impactUnit s) (impactUnit r);
     isActive := assign (set_isActive s) (isActive r);
     createdAt := assign (set_createdAt s) (createdAt r);
     updatedAt := assign (set_updatedAt s) (updatedAt r) |}.

End EcoHabits.

Module EcoHabitLogs.

Record row := {
  id : string;                       (* primary key *)
  habitId : string;                  (* references EcoHabits.id *)
  userId : string;
  logDate : Date;
  quantity : option number;
  notes : option string;
  createdAt : Date
}.

Record values := {
  set_id : option string;
  set_habitId : option string;
  set_userId : option string;
  set_logDate : option Date;
  set_quantity : option number;
  set_notes : option string;
  set_createdAt : option Date
}.

Definition apply (s : values) (r : row) : row :=
  {| id := assign (set_id s) (id r);
     habitId := assign (set_habitId s) (habitId r);
     userId := assign (set_userId s) (userId r);
     logDate := assign (set_logDate s) (logDate r);
     quantity := assign_nullable (set_quantity s) (quantity r);
     notes := assign_nullable (set_notes s) (notes r);
     createdAt := assign (set_createdAt s) (createdAt r) |}.

End EcoHabitLogs.

(* ------------------------------------------------------------------ *)
(** ** Where clauses: [eq(column, value)] and [and(p, q)] *)

Class SqlEq (A : Type) := sql_eqb : A -> A -> bool.
#[export] Instance SqlEq_text : SqlEq string := String.eqb.
#[export] Instance SqlEq_boolean : SqlEq bool := Bool.eqb.

Definition eq_ {R A} `{SqlEq A} (column : R -> A) (value : A) : R -> bool :=
  fun r => sql_eqb (column r) value.

Definition and_ {R} (p q : R -> bool) : R -> bool :=
  fun r => p r && q r.

(* ------------------------------------------------------------------ *)
(** ** Statements on the rows of one table *)

Section Rows.
Variable R : Type.
Variable pk : R -> string.

(** [select().from(T).where(w)]: the matching rows, in table order. *)
Definition select_rows (w : R -> bool) (rows : list R) : list R :=
  filter w rows.

(** [update(T).set(s).where(w)]: every matching row is rewritten in place.
    (An object without any defined key is refused by Drizzle; the objects
    of this layer always define [updatedAt] or [habitId].) *)
Definition update_rows (s : R -> R) (w : R -> bool) (rows : list R) : list R :=
  map (fun r => if w r then s r else r) rows.

(** [insert(T).values(r)]: the row is added at the end; the primary key
    refuses a row whose key is already in the table. *)
Definition insert_row (r : R) (rows : list R) : option (list R) :=
  if existsb (fun r' => String.eqb (pk r') (pk r)) rows
  then None
  else Some (rows ++ [r]).
End Rows.

(* ------------------------------------------------------------------ *)
(** ** The world and the outcome of a call *)

Inductive Table := T_EcoHabits | T_EcoHabitLogs.

Inductive Statement :=
| SELECT (t : Table)
| INSERT (t : Table)
| UPDATE (t : Table).

Record World := {
  habits : list EcoHabits.row;
  logs : list EcoHabitLogs.row;
  journal : list Statement;            (* statements issued to db, oldest first *)
  uuid_source : nat -> string;         (* the n-th value of crypto.randomUUID() *)
  uuid_drawn : nat;
  clock : nat -> Date;                 (* the n-th reading of new Date() *)
  clock_read : nat
}.

Inductive ActionErrorCode := UNAUTHORIZED | NOT_FOUND.

(** The issues a schema reports, by zod's issue codes. *)
Inductive ZodIssue :=
| invalid_type (path : string)         (* a required key is missing *)
| too_small (path : string)            (* .min(1), .positive(), .nonnegative() *)
| invalid_date (path : string)         (* z.coerce.date() on what is not a date *)
| custom (message : string).           (* .refine(...) *)

Inductive Thrown :=
| ActionError (code : ActionErrorCode) (message : string)
| ActionInputError (issues : list ZodIssue)
| ConstraintError (t : Table).         (* the primary key refused an insert *)

Inductive Outcome (A : Type) :=
| Returned (a : A)
| Threw (e : Thrown).
Arguments Threw {A} e.

Definition Action (A : Type) : Type := World -> Outcome A * World.

Definition ret {A} (a : A) : Action A := fun w => (Returned a, w).

Definition throw {A} (e : Thrown) : Action A := fun w => (Threw e, w).

Definition bind {A B} (m : Action A) (k : A -> Action B) : Action B :=
  fun w =>
    match m w with
    | (Returned a, w') => k a w'
    | (Threw e, w') => (Threw e, w')
    end.

Declare Scope action_scope.
Delimit Scope action_scope with action.
Notation "x <- m ;; k" := (bind m (fun x => k))
  (at level 61, m at next level, right associativity) : action_scope.
Notation "m ;;; k" := (bind m (fun _ => k))
  (at level 61, right associativity) : action_scope.
Local Open Scope action_scope.

(** The outcome and the world after a call. *)
Definition outcome {A} (m : Action A) (w : World) : Outcome A := fst (m w).
Definition after {A} (m : Action A) (w : World) : World := snd (m w).

(* ------------------------------------------------------------------ *)
(** ** The database handle [db] and the two sources *)

Definition issue (s : Statement) (w : World) : World :=
  {| habits := habits w; logs := logs w; journal := journal w ++ [s];
     uuid_source := uuid_source w; uuid_drawn := uuid_drawn w;
     clock := clock w; clock_read := clock_read w |}.

Definition with_habits (rows : list EcoHabits.row) (w : World) : World :=
  {| habits := rows; logs := logs w; journal := journal w;
     uuid_source := uuid_source w; uuid_drawn := uuid_drawn w;
     clock := clock w; clock_read := clock_read w |}.

Definition with_logs (rows : list EcoHabitLogs.row) (w : World) : World :=
  {| habits := habits w; logs := rows; journal := journal w;
     uuid_source := uuid_source w; uuid_drawn := uuid_drawn w;
     clock := clock w; clock_read := clock_read w |}.

Module db.

Definition select_EcoHabits (where_ : EcoHabits.row -> bool)
  : Action (list EcoHabits.row) :=
  fun w => (Returned (select_rows where_ (habits w)), issue (SELECT T_EcoHabits) w).

Definition select_EcoHabitLogs (where_ : EcoHabitLogs.row -> bool)
  : Action (list EcoHabitLogs.row) :=
  fun w => (Returned (select_rows where_ (logs w)), issue (SELECT T_EcoHabitLogs) w).

Definition insert_EcoHabits (r : EcoHabits.row) : Action unit :=
  fun w =>
    let w1 := issue (INSERT T_EcoHabits) w in
    match insert_row EcoHabits.id r (habits w) with
    | Some rows => (Returned tt, with_habits rows w1)
    | None => (Threw (ConstraintError T_EcoHabits), w1)
    end.

Definition insert_EcoHabitLogs (r : EcoHabitLogs.row) : Action unit :=
  fun w =>
    let w1 := issue (INSERT T_EcoHabitLogs) w in
    match insert_row EcoHabitLogs.id r (logs w) with
    | Some rows => (Returned tt, with_logs rows w1)
    | None => (Threw (ConstraintError T_EcoHabitLogs), w1)
    end.

Definition update_EcoHabits (s : EcoHabits.values) (where_ : EcoHabits.row -> bool)
  : Action unit :=
  fun w =>
    (Returned tt,
     with_habits (update_rows (EcoHabits.apply s) where_ (habits w))
                 (issue (UPDATE T_EcoHabits) w)).

Definition update_EcoHabitLogs (s : EcoHabitLogs.values)
           (where_ : EcoHabitLogs.row -> bool) : Action unit :=
  fun w =>
    (Returned tt,
     with_logs (update_rows (EcoHabitLogs.apply s) where_ (logs w))
               (issue (UPDATE T_EcoHabitLogs) w)).

End db.

(** [crypto.randomUUID()] *)
Definition randomUUID : Action string :=
  fun w =>
    (Returned (uuid_source w (uuid_drawn w)),
     {| habits := habits w; logs := logs w; journal := journal w;
        uuid_source := uuid_source w; uuid_drawn := S (uuid_drawn w);
        clock := clock w; clock_read := clock_read w |}).

(** [new Date()] *)
Definition new_Date : Action Date :=
  fun w =>
    (Returned (clock w (clock_read w)),
     {| habits := habits w; logs := logs w; journal := journal w;
        uuid_source := uuid_source w; uuid_drawn := uuid_drawn w;
        clock := clock w; clock_read := S (clock_read w) |}).

(* ------------------------------------------------------------------ *)
(** ** The call context *)

Module User.
Record t := { id : string }.
End User.

Record Locals := { user : option User.t }.

Record ActionAPIContext := { locals : option Locals }.

(** [context.locals?.user] *)
Definition identity (context : ActionAPIContext) : option User.t :=
  match locals context with
  | Some l => user l
  | None => None
  end.

Definition signed_in (u : string) : ActionAPIContext :=
  {| locals := Some {| user := Some {| User.id := u |} |} |}.

(* ------------------------------------------------------------------ *)
(** ** Payloads, parsed inputs and results *)

(** Payloads are modelled with every key at the type its schema asks for,
    so what is left for a schema to refuse is a required key that is
    missing and a value outside its range; the [logDate] of a log payload is
    held as what [z.coerce.date()] makes of it, which may be the invalid
    date.  One payload shape serves
    [createHabit] and [updateHabit]: [z.object] drops the keys its schema
    does not name, so [createHabit] never sees [id]. *)
Module HabitPayload.
Record t := {
  id : option string;
  name : option string;
  description : option string;
  category : option string;
  frequency : option string;
  targetPerPeriod : option number;
  impactPerUnit : option number;
  impactUnit : option string
}.
End HabitPayload.

(** The output of [habitFieldsSchema]. *)
Module HabitFields.
Record t := {
  name : string;
  description : option string;
  category : option string;
  frequency : option string;
  targetPerPeriod : option number;
  impactPerUnit : option number;
  impactUnit : option string
}.
End HabitFields.

(** The output of [habitFieldsSchema.partial().extend({ id: z.string() })]. *)
Module HabitPatch.
Record t := {
  id : string;
  name : option string;
  description : option string;
  category : option string;
  frequency : option string;
  targetPerPeriod : option number;
  impactPerUnit : option number;
  impactUnit : option string
}.
End HabitPatch.

Module ArchivePayload.
Record t := { id : option string }.
End ArchivePayload.

Module ArchiveInput.
Record t := { id : string }.
End ArchiveInput.

Module ListHabitsPayload.
Record t := { includeInactive : option bool }.
End ListHabitsPayload.

Module ListHabitsInput.
Record t := { includeInactive : bool }.
End ListHabitsInput.

Module LogPayload.
Record t := {
  id : option string;
  habitId : option string;
  logDate : option Coerced;
  quantity : option number;
  notes : option string
}.
End LogPayload.

Module LogInput.
Record t := {
  id : option string;
  habitId : string;
  logDate : option Date;
  quantity : option number;
  notes : option string
}.
End LogInput.

Module LogFilter.
Record t := { habitId : option string }.
End LogFilter.

Record Envelope (A : Type) := { success : bool; data : A }.

Record HabitId := { habitId : string }.

Inductive Mode := created | updated.

Record LogId := { logId : string; mode : Mode }.

Record Listing (R : Type) := { items : list R; total : nat }.

Definition ok {A} (d : A) : Envelope A := {| success := true; data := d |}.

(* ------------------------------------------------------------------ *)
(** ** The schemas *)

Definition positive (q : number) : bool := negb (Qle_bool q 0).
Definition nonnegative (q : number) : bool := Qle_bool 0 q.

(** [z.string().min(1)], optional or not. *)
Definition check_min1 (path : string) (v : option string) : list ZodIssue :=
  match v with
  | Some s => if (1 <=? String.length s)%nat then [] else [too_small path]
  | None => []
  end.

(** [z.number().positive().optional()] *)
Definition check_positive (path : string) (v : option number) : list ZodIssue :=
  match v with
  | Some q => if positive q then [] else [too_small path]
  | None => []
  end.

(** [z.number().nonnegative().optional()] *)
Definition check_nonnegative (path : string) (v : option number) : list ZodIssue :=
  match v with
  | Some q => if nonnegative q then [] else [too_small path]
  | None => []
  end.

(** A key without [.optional()]. *)
Definition check_required {A} (path : string) (v : option A) : list ZodIssue :=
  match v with
  | Some _ => []
  | None => [invalid_type path]
  end.

Definition habitFieldsSchema (p : HabitPayload.t) : list ZodIssue + HabitFields.t :=
  match
    check_required "name" (HabitPayload.name p)
    ++ check_min1 "name" (HabitPayload.name p)
    ++ check_positive "targetPerPeriod" (HabitPayload.targetPerPeriod p),
    HabitPayload.name p
  with
  | [], Some n =>
      inr {| HabitFields.name := n;
             HabitFields.description := HabitPayload.description p;
             HabitFields.category := HabitPayload.category p;
             HabitFields.frequency := HabitPayload.frequency p;
             HabitFields.targetPerPeriod := HabitPayload.targetPerPeriod p;
             HabitFields.impactPerUnit := HabitPayload.impactPerUnit p;
             HabitFields.impactUnit := HabitPayload.impactUnit p |}
  | issues, _ => inl issues
  end.

Definition defined {A} (v : option A) : bool :=
  match v with Some _ => true | None => false end.

(** The predicate given to [.refine] in [updateHabit]'s schema:
    [[payload.name, ..., payload.impactUnit].some((value) => value !== undefined)] *)
Definition some_field_defined (p : HabitPayload.t) : bool :=
  existsb (fun b : bool => b)
    [ defined (HabitPayload.name p);
      defined (HabitPayload.description p);
      defined (HabitPayload.category p);
      defined (HabitPayload.frequency p);
      defined (HabitPayload.targetPerPeriod p);
      defined (HabitPayload.impactPerUnit p);
      defined (HabitPayload.impactUnit p) ].

(** [habitFieldsSchema.partial().extend({ id: z.string() }).refine(...)].
    The refinement is run on an object whose keys all have their types,
    that is, here, unless [id] is missing. *)
Definition updateHabitSchema (p : HabitPayload.t) : list ZodIssue + HabitPatch.t :=
  match
    check_min1 "name" (HabitPayload.name p)
    ++ check_positive "targetPerPeriod" (HabitPayload.targetPerPeriod p)
    ++ check_required "id" (HabitPayload.id p)
    ++ (if defined (HabitPayload.id p) && negb (some_field_defined p)
        then [custom "At least one field must be provided to update."]
        else []),
    HabitPayload.id p
  with
  | [], Some i =>
      inr {| HabitPatch.id := i;
             HabitPatch.name := HabitPayload.name p;
             HabitPatch.description := HabitPayload.description p;
             HabitPatch.category := HabitPayload.category p;
             HabitPatch.frequency := HabitPayload.frequency p;
             HabitPatch.targetPerPeriod := HabitPayload.targetPerPeriod p;
             HabitPatch.impactPerUnit := HabitPayload.impactPerUnit p;
             HabitPatch.impactUnit := HabitPayload.impactUnit p |}
  | issues, _ => inl issues
  end.

(** [z.object({ id: z.string() })] *)
Definition archiveHabitSchema (p : ArchivePayload.t) : list ZodIssue + ArchiveInput.t :=
  match ArchivePayload.id p with
  | Some i => inr {| ArchiveInput.id := i |}
  | None => inl [invalid_type "id"]
  end.

(** [z.object({ includeInactive: z.boolean().default(false) })] *)
Definition listMyHabitsSchema (p : ListHabitsPayload.t)
  : list ZodIssue + ListHabitsInput.t :=
  inr {| ListHabitsInput.includeInactive :=
           nullish (ListHabitsPayload.includeInactive p) false |}.

(** [z.coerce.date().optional()]: an absent key passes, a value that
    coerces to a date passes as that date, the invalid date is refused. *)
Definition check_date (path : string) (v : option Coerced) : list ZodIssue :=
  match v with
  | Some Invalid_Date => [invalid_date path]
  | Some (valid_date _) | None => []
  end.

Definition coerced_date (v : option Coerced) : option Date :=
  match v with
  | Some (valid_date d) => Some d
  | Some Invalid_Date | None => None
  end.

(** [upsertHabitLog]'s schema. *)
Definition upsertHabitLogSchema (p : LogPayload.t) : list ZodIssue + LogInput.t :=
  match
    check_required "habitId" (LogPayload.habitId p)
    ++ check_date "logDate" (LogPayload.logDate p)
    ++ check_nonnegative "quantity" (LogPayload.quantity p),
    LogPayload.habitId p
  with
  | [], Some h =>
      inr {| LogInput.id := LogPayload.id p;
             LogInput.habitId := h;
             LogInput.logDate := coerced_date (LogPayload.logDate p);
             LogInput.quantity := LogPayload.quantity p;
             LogInput.notes := LogPayload.notes p |}
  | issues, _ => inl issues
  end.

(** [z.object({ habitId: z.string().optional() }).default({})] *)
Definition listHabitLogsSchema (p : option LogFilter.t) : list ZodIssue + LogFilter.t :=
  inr (nullish p {| LogFilter.habitId := None |}).

(** [defineAction({ input, handler })]: the payload is parsed against
    [input]; a payload the schema refuses is answered with the input error
    and the handler is not run; otherwise the handler is run on the parsed
    input. *)
Definition defineAction {P I O}
           (input : P -> list ZodIssue + I)
           (handler : I -> ActionAPIContext -> Action O)
  : P -> ActionAPIContext -> Action O :=
  fun payload context =>
    match input payload with
    | inl issues => throw (ActionInputError issues)
    | inr parsed => handler parsed context
    end.

(* ------------------------------------------------------------------ *)
(** ** The actions ([src/src/actions/index.ts]) *)

Definition requireUser (context : ActionAPIContext) : Action User.t :=
  match identity context with
  | None =>
      throw (ActionError UNAUTHORIZED "You must be signed in to perform this action.")
  | Some user => ret user
  end.

Definition getHabitForUser (habitId userId : string) : Action (option EcoHabits.row) :=
  rows <- db.select_EcoHabits
            (and_ (eq_ EcoHabits.id habitId) (eq_ EcoHabits.userId userId)) ;;
  ret (hd_error rows).

Module server.

Definition createHabit : HabitPayload.t -> ActionAPIContext -> Action (Envelope HabitId) :=
  defineAction habitFieldsSchema (fun input context =>
    user <- requireUser context ;;
    habitId <- randomUUID ;;
    timestamp <- new_Date ;;
    db.insert_EcoHabits
      {| EcoHabits.id := habitId;
         EcoHabits.userId := User.id user;
         EcoHabits.name := HabitFields.name input;
         EcoHabits.description := HabitFields.description input;
         EcoHabits.category := HabitFields.category input;
         EcoHabits.frequency := HabitFields.frequency input;
         EcoHabits.targetPerPeriod := HabitFields.targetPerPeriod input;
         EcoHabits.impactPerUnit := HabitFields.impactPerUnit input;
         EcoHabits.impactUnit := HabitFields.impactUnit input;
         EcoHabits.isActive := true;
         EcoHabits.createdAt := timestamp;
         EcoHabits.updatedAt := timestamp |} ;;;
    ret (ok {| habitId := habitId |})).

Definition updateHabit : HabitPayload.t -> ActionAPIContext -> Action (Envelope HabitId) :=
  defineAction updateHabitSchema (fun input context =>
    user <- requireUser context ;;
    habit <- getHabitForUser (HabitPatch.id input) (User.id user) ;;
    match habit with
    | None => throw (ActionError NOT_FOUND "Habit not found.")
    | Some _ =>
        now <- new_Date ;;
        (* [if (input.k !== undefined) updates.k = input.k]: key [k] of
           [updates] is [input.k] where that is defined and is left out
           where it is not. *)
        let updates :=
          {| EcoHabits.set_id := None;
             EcoHabits.set_userId := None;
             EcoHabits.set_name := HabitPatch.name input;
             EcoHabits.set_description := HabitPatch.description input;
             EcoHabits.set_category := HabitPatch.category input;
             EcoHabits.set_frequency := HabitPatch.frequency input;
             EcoHabits.set_targetPerPeriod := HabitPatch.targetPerPeriod input;
             EcoHabits.set_impactPerUnit := HabitPatch.impactPerUnit input;
             EcoHabits.set_impactUnit := HabitPatch.impactUnit input;
             EcoHabits.set_isActive := None;
             EcoHabits.set_createdAt := None;
             EcoHabits.set_updatedAt := Some now |} in
        db.update_EcoHabits updates
          (and_ (eq_ EcoHabits.id (HabitPatch.id input))
                (eq_ EcoHabits.userId (User.id user))) ;;;
        ret (ok {| habitId := HabitPatch.id input |})
    end).

Definition archiveHabit : ArchivePayload.t -> ActionAPIContext -> Action (Envelope HabitId) :=
  defineAction archiveHabitSchema (fun input context =>
    user <- requireUser context ;;
    habit <- getHabitForUser (ArchiveInput.id input) (User.id user) ;;
    match habit with
    | None => throw (ActionError NOT_FOUND "Habit not found.")
    | Some _ =>
        now <- new_Date ;;
        db.update_EcoHabits
          {| EcoHabits.set_id := None;
             EcoHabits.set_userId := None;
             EcoHabits.set_name := None;
             EcoHabits.set_description := None;
             EcoHabits.set_category := None;
             EcoHabits.set_frequency := None;
             EcoHabits.set_targetPerPeriod := None;
             EcoHabits.set_impactPerUnit := None;
             EcoHabits.set_impactUnit := None;
             EcoHabits.set_isActive := Some false;
             EcoHabits.set_createdAt := None;
             EcoHabits.set_updatedAt := Some now |}
          (and_ (eq_ EcoHabits.id (ArchiveInput.id input))
                (eq_ EcoHabits.userId (User.id user))) ;;;
        ret (ok {| habitId := ArchiveInput.id input |})
    end).

Definition listMyHabits
  : ListHabitsPayload.t -> ActionAPIContext -> Action (Envelope (Listing EcoHabits.row)) :=
  defineAction listMyHabitsSchema (fun input context =>
    user <- requireUser context ;;
    let whereClause :=
      if ListHabitsInput.includeInactive input
      then eq_ EcoHabits.userId (User.id user)
      else and_ (eq_ EcoHabits.userId (User.id user)) (eq_ EcoHabits.isActive true) in
    habits <- db.select_EcoHabits whereClause ;;
    ret (ok {| items := habits; total := List.length habits |})).

Definition upsertHabitLog : LogPayload.t -> ActionAPIContext -> Action (Envelope LogId) :=
  defineAction upsertHabitLogSchema (fun input context =>
    user <- requireUser context ;;
    habit <- getHabitForUser (LogInput.habitId input) (User.id user) ;;
    match habit with
    | None => throw (ActionError NOT_FOUND "Habit not found.")
    | Some _ =>
        (* [if (input.id) { ... return ... }], then the create path *)
        match if_truthy (LogInput.id input) with
        | Some id =>
            rows <- db.select_EcoHabitLogs
                      (and_ (eq_ EcoHabitLogs.id id)
                            (eq_ EcoHabitLogs.userId (User.id user))) ;;
            match hd_error rows with
            | None => throw (ActionError NOT_FOUND "Habit log not found.")
            | Some existingLog =>
                db.update_EcoHabitLogs
                  {| EcoHabitLogs.set_id := None;
                     EcoHabitLogs.set_habitId := Some (LogInput.habitId input);
                     EcoHabitLogs.set_userId := None;
                     EcoHabitLogs.set_logDate :=
                       Some (nullish (LogInput.logDate input)
                                     (EcoHabitLogs.logDate existingLog));
                     EcoHabitLogs.set_quantity := LogInput.quantity input;
                     EcoHabitLogs.set_notes := LogInput.notes input;
                     EcoHabitLogs.set_createdAt := None |}
                  (and_ (eq_ EcoHabitLogs.id id)
                        (eq_ EcoHabitLogs.userId (User.id user))) ;;;
                ret (ok {| logId := id; mode := updated |})
            end
        | None =>
            logId <- randomUUID ;;
            logDate <- match LogInput.logDate input with
                       | Some d => ret d
                       | None => new_Date
                       end ;;
            createdAt <- new_Date ;;
            db.insert_EcoHabitLogs
              {| EcoHabitLogs.id := logId;
                 EcoHabitLogs.habitId := LogInput.habitId input;
                 EcoHabitLogs.userId := User.id user;
                 EcoHabitLogs.logDate := logDate;
                 EcoHabitLogs.quantity := LogInput.quantity input;
                 EcoHabitLogs.notes := LogInput.notes input;
                 EcoHabitLogs.createdAt := createdAt |} ;;;
            ret (ok {| logId := logId; mode := created |})
        end
    end).

Definition listHabitLogs
  : option LogFilter.t -> ActionAPIContext -> Action (Envelope (Listing EcoHabitLogs.row)) :=
  defineAction listHabitLogsSchema (fun input context =>
    user <- requireUser context ;;
    let habitId := LogFilter.habitId input in
    match if_truthy habitId with
    | Some habitId =>
        habit <- getHabitForUser habitId (User.id user) ;;
        match habit with
        | None => throw (ActionError NOT_FOUND "Habit not found.")
        | Some _ => ret tt
        end
    | None => ret tt
    end ;;;
    let whereClause :=
      match if_truthy habitId with
      | Some habitId =>
          and_ (eq_ EcoHabitLogs.userId (User.id user))
               (eq_ EcoHabitLogs.habitId habitId)
      | None => eq_ EcoHabitLogs.userId (User.id user)
      end in
    logs <- db.select_EcoHabitLogs whereClause ;;
    ret (ok {| items := logs; total := List.length logs |})).

End server.

(* ------------------------------------------------------------------ *)
(** ** Ownership, the store invariant and runs of calls *)

(** [h] is the id of a habit of user [u]. *)
Definition owns_habit (w : World) (u h : string) : bool :=
  existsb (fun r => String.eqb (EcoHabits.id r) h && String.eqb (EcoHabits.userId r) u)
          (habits w).

(** [l] is the id of a log of user [u]. *)
Definition owns_log (w : World) (u l : string) : bool :=
  existsb (fun r => String.eqb (EcoHabitLogs.id r) l && String.eqb (EcoHabitLogs.userId r) u)
          (logs w).

(** What the primary keys and the id generator give: ids are unique within a
    table, and none is the empty string. *)
Record well_formed (w : World) : Prop := {
  habit_ids_unique : NoDup (map EcoHabits.id (habits w));
  log_ids_unique : NoDup (map EcoHabitLogs.id (logs w));
  habit_ids_nonempty : ~ In EmptyString (map EcoHabits.id (habits w));
  log_ids_nonempty : ~ In EmptyString (map EcoHabitLogs.id (logs w))
}.

(** [crypto.randomUUID()] never yields the empty string. *)
Definition uuids_nonempty (w : World) : Prop :=
  forall n, uuid_source w n <> EmptyString.

(** A call of one of the six actions. *)
Inductive Call :=
| CreateHabit (p : HabitPayload.t)
| UpdateHabit (p : HabitPayload.t)
| ArchiveHabit (p : ArchivePayload.t)
| ListMyHabits (p : ListHabitsPayload.t)
| UpsertHabitLog (p : LogPayload.t)
| ListHabitLogs (p : option LogFilter.t).

Definition Request : Type := Call * ActionAPIContext.

(** The world after a request was served. *)
Definition serve (r : Request) (w : World) : World :=
  match r with
  | (CreateHabit p, context) => after (server.createHabit p context) w
  | (UpdateHabit p, context) => after (server.updateHabit p context) w
  | (ArchiveHabit p, context) => after (server.archiveHabit p context) w
  | (ListMyHabits p, context) => after (server.listMyHabits p context) w
  | (UpsertHabitLog p, context) => after (server.upsertHabitLog p context) w
  | (ListHabitLogs p, context) => after (server.listHabitLogs p context) w
  end.

(** The world after a sequence of requests, served in order. *)
Fixpoint run (rs : list Request) (w : World) : World :=
  match rs with
  | [] => w
  | r :: rs' => run rs' (serve r w)
  end.

(** Two rows of a table agree on the columns an owner-scoped edit leaves alone. *)
Definition same_log_identity (r r' : EcoHabitLogs.row) : Prop :=
  EcoHabitLogs.id r' = EcoHabitLogs.id r
  /\ EcoHabitLogs.userId r' = EcoHabitLogs.userId r
  /\ EcoHabitLogs.createdAt r' = EcoHabitLogs.createdAt r.

(* ------------------------------------------------------------------ *)
(** ** Sample data *)

Module Sample.

Definition anonymous : ActionAPIContext := {| locals := Some {| user := None |} |}.
Definition no_locals : ActionAPIContext := {| locals := None |}.
Definition alice : ActionAPIContext := signed_in "alice".
Definition bob : ActionAPIContext := signed_in "bob".

Definition bike : EcoHabits.row :=
  {| EcoHabits.id := "H1"; EcoHabits.userId := "alice";
     EcoHabits.name := "Bike to work"; EcoHabits.description := None;
     EcoHabits.category := Some "transport"; EcoHabits.frequency := Some "weekly";
     EcoHabits.targetPerPeriod := Some (3 # 1); EcoHabits.impactPerUnit := None;
     EcoHabits.impactUnit := None; EcoHabits.isActive := true;
     EcoHabits.createdAt := 1000%Z; EcoHabits.updatedAt := 1000%Z |}.

Definition bottle : EcoHabits.row :=
  {| EcoHabits.id := "H2"; EcoHabits.userId := "bob";
     EcoHabits.name := "Use reusable bottle"; EcoHabits.description := None;
     EcoHabits.category := Some "waste"; EcoHabits.frequency := Some "daily";
     EcoHabits.targetPerPeriod := None; EcoHabits.impactPerUnit := Some (1 # 2);
     EcoHabits.impactUnit := Some "kg_co2"; EcoHabits.isActive := true;
     EcoHabits.createdAt := 1100%Z; EcoHabits.updatedAt := 1100%Z |}.

Definition ride : EcoHabitLogs.row :=
  {| EcoHabitLogs.id := "L1"; EcoHabitLogs.habitId := "H1";
     EcoHabitLogs.userId := "alice"; EcoHabitLogs.logDate := 1200%Z;
     EcoHabitLogs.quantity := Some (1 # 1); EcoHabitLogs.notes := Some "rainy";
     EcoHabitLogs.createdAt := 1200%Z |}.

Definition refill : EcoHabitLogs.row :=
  {| EcoHabitLogs.id := "L2"; EcoHabitLogs.habitId := "H2";
     EcoHabitLogs.userId := "bob"; EcoHabitLogs.logDate := 1300%Z;
     EcoHabitLogs.quantity := Some (2 # 1); EcoHabitLogs.notes := None;
     EcoHabitLogs.createdAt := 1300%Z |}.

(** Ids "U0", "U00", ... and one millisecond per reading of the clock. *)
Fixpoint zeros (n : nat) : string :=
  match n with
  | O => "0"
  | S n' => String "0"%char (zeros n')
  end.

Definition world : World :=
  {| habits := [bike; bottle];
     logs := [ride; refill];
     journal := [];
     uuid_source := fun n => String "U"%char (zeros n);
     uuid_drawn := 0;
     clock := fun n => (2000 + Z.of_nat n)%Z;
     clock_read := 0 |}.

Definition empty_world : World :=
  {| habits := []; logs := []; journal := [];
     uuid_source := fun n => String "U"%char (zeros n); uuid_drawn := 0;
     clock := fun n => (2000 + Z.of_nat n)%Z; clock_read := 0 |}.

Definition habit_payload (id name category : option string) : HabitPayload.t :=
  {| HabitPayload.id := id; HabitPayload.name := name;
     HabitPayload.description := None; HabitPayload.category := category;
     HabitPayload.frequency := None; HabitPayload.targetPerPeriod := None;
     HabitPayload.impactPerUnit := None; HabitPayload.impactUnit := None |}.

Definition log_payload (id habitId : option string) (quantity : option number)
  : LogPayload.t :=
  {| LogPayload.id := id; LogPayload.habitId := habitId;
     LogPayload.logDate := None; LogPayload.quantity := quantity;
     LogPayload.notes := None |}.

(** The session of the specification's example: a habit is created, an
    occurrence is logged, and the log is edited. *)
Definition session : list Request :=
  [ (CreateHabit
       {| HabitPayload.id := None; HabitPayload.name := Some "Bike to work";
          HabitPayload.description := None; HabitPayload.category := None;
          HabitPayload.frequency := None;
          HabitPayload.targetPerPeriod := Some (3 # 1);
          HabitPayload.impactPerUnit := None; HabitPayload.impactUnit := None |},
     alice);
    (UpsertHabitLog (log_payload None (Some "U0") (Some (1 # 1))), alice);
    (UpsertHabitLog (log_payload (Some "U00") (Some "U0") (Some (2 # 1))), alice) ].

Definition session_log : EcoHabitLogs.row :=
  {| EcoHabitLogs.id := "U00"; EcoHabitLogs.habitId := "U0";
     EcoHabitLogs.userId := "alice"; EcoHabitLogs.logDate := 2001%Z;
     EcoHabitLogs.quantity := Some (2 # 1); EcoHabitLogs.notes := None;
     EcoHabitLogs.createdAt := 2002%Z |}.

End Sample.


(* ------------------------------------------------------------------ *)
(** ** What a statement of the properties needs *)

(** The call is answered NOT_FOUND, with one of the two fixed messages of
    the action layer, and neither table has changed. *)
Definition not_found_untouched {A} (m : Action A) (w : World) : Prop :=
  (outcome m w = Threw (ActionError NOT_FOUND "Habit not found.")
   \/ outcome m w = Threw (ActionError NOT_FOUND "Habit log not found."))
  /\ habits (after m w) = habits w
  /\ logs (after m w) = logs w.

(** What a call without identity is answered with, given what the schema
    made of its payload. *)
Definition answer_without_identity {I} (parsed : list ZodIssue + I) : Thrown :=
  match parsed with
  | inl issues => ActionInputError issues
  | inr _ => ActionError UNAUTHORIZED "You must be signed in to perform this action."
  end.

(** A payload of [updateHabit] with [id] and nothing else. *)
Definition only_id (i : string) : HabitPayload.t :=
  {| HabitPayload.id := Some i; HabitPayload.name := None;
     HabitPayload.description := None; HabitPayload.category := None;
     HabitPayload.frequency := None; HabitPayload.targetPerPeriod := None;
     HabitPayload.impactPerUnit := None; HabitPayload.impactUnit := None |}.

(** [new] is [old] after a patch of [updateHabit] at time [now]: the keys
    the patch defines have the patch's values, [updatedAt] is [now], and
    every other column is as it was. *)
Definition patched (input : HabitPatch.t) (now : Date) (old new : EcoHabits.row) : Prop :=
  EcoHabits.id new = EcoHabits.id old
  /\ EcoHabits.userId new = EcoHabits.userId old
  /\ EcoHabits.isActive new = EcoHabits.isActive old
  /\ EcoHabits.createdAt new = EcoHabits.createdAt old
  /\ EcoHabits.updatedAt new = now
  /\ EcoHabits.name new
     = match HabitPatch.name input with Some v => v | None => EcoHabits.name old end
  /\ EcoHabits.description new
     = match HabitPatch.description input with
       | Some v => Some v | None => EcoHabits.description old end
  /\ EcoHabits.category new
     = match HabitPatch.category input with
       | Some v => Some v | None => EcoHabits.category old end
  /\ EcoHabits.frequency new
     = match HabitPatch.frequency input with
       | Some v => Some v | None => EcoHabits.frequency old end
  /\ EcoHabits.targetPerPeriod new
     = match HabitPatch.targetPerPeriod input with
       | Some v => Some v | None => EcoHabits.targetPerPeriod old end
  /\ EcoHabits.impactPerUnit new
     = match HabitPatch.impactPerUnit input with
       | Some v => Some v | None => EcoHabits.impactPerUnit old end
  /\ EcoHabits.impactUnit new
     = match HabitPatch.impactUnit input with
       | Some v => Some v | None => EcoHabits.impactUnit old end.

(** The habit [h] of user [u]. *)
Definition is_habit (u h : string) (r : EcoHabits.row) : bool :=
  String.eqb (EcoHabits.id r) h && String.eqb (EcoHabits.userId r) u.

(** The log [l] of user [u]. *)
Definition is_log (u l : string) (r : EcoHabitLogs.row) : bool :=
  String.eqb (EcoHabitLogs.id r) l && String.eqb (EcoHabitLogs.userId r) u.

(** [old] after the update path of [upsertHabitLog]. *)
Definition edited (input : LogInput.t) (old : EcoHabitLogs.row) : EcoHabitLogs.row :=
  {| EcoHabitLogs.id := EcoHabitLogs.id old;
     EcoHabitLogs.habitId := LogInput.habitId input;
     EcoHabitLogs.userId := EcoHabitLogs.userId old;
     EcoHabitLogs.logDate :=
       match LogInput.logDate input with
       | Some d => d | None => EcoHabitLogs.logDate old end;
     EcoHabitLogs.quantity :=
       match LogInput.quantity input with
       | Some q => Some q | None => EcoHabitLogs.quantity old end;
     EcoHabitLogs.notes :=
       match LogInput.notes input with
       | Some n => Some n | None => EcoHabitLogs.notes old end;
     EcoHabitLogs.createdAt := EcoHabitLogs.createdAt old |}.

(** The payload [{ items, total }] of the two listings. *)
Definition listing {R} (rows : list R) : Envelope (Listing R) :=
  ok {| items := rows; total := List.length rows |}.

(** The row the create path of [upsertHabitLog] inserts for user [u] in
    world [w]: its id is the next value of [crypto.randomUUID()], its dates
    the next readings of the clock. *)
Definition new_log (input : LogInput.t) (u : string) (w : World) : EcoHabitLogs.row :=
  {| EcoHabitLogs.id := uuid_source w (uuid_drawn w);
     EcoHabitLogs.habitId := LogInput.habitId input;
     EcoHabitLogs.userId := u;
     EcoHabitLogs.logDate :=
       match LogInput.logDate input with
       | Some d => d | None => clock w (clock_read w) end;
     EcoHabitLogs.quantity := LogInput.quantity input;
     EcoHabitLogs.notes := LogInput.notes input;
     EcoHabitLogs.createdAt :=
       match LogInput.logDate input with
       | Some _ => clock w (clock_read w)
       | None => clock w (S (clock_read w))
       end |}.

(** No log has the id that [crypto.randomUUID()] yields next. *)
Definition next_uuid_unused (w : World) : Prop :=
  ~ In (uuid_source w (uuid_drawn w)) (map EcoHabitLogs.id (logs w)).

(** The logs of user [u], and those of them that are logs of habit [h]. *)
Definition logs_of (w : World) (u : string) : list EcoHabitLogs.row :=
  filter (fun r => String.eqb (EcoHabitLogs.userId r) u) (logs w).

Definition logs_of_habit (w : World) (u h : string) : list EcoHabitLogs.row :=
  filter (fun r => String.eqb (EcoHabitLogs.userId r) u
                   && String.eqb (EcoHabitLogs.habitId r) h) (logs w).

(** User [u] has a habit of id [h], and it is archived. *)
Definition archived (w : World) (u h : string) : Prop :=
  (exists r, In r (habits w) /\ EcoHabits.id r = h /\ EcoHabits.userId r = u)
  /\ (forall r, In r (habits w) ->
                EcoHabits.id r = h -> EcoHabits.userId r = u ->
                EcoHabits.isActive r = false).

(** Request [rq], served in world [w], created the log of id [l] for the
    signed-in user [u]. *)
Definition creates (rq : Request) (w : World) (u l : string) : Prop :=
  exists p context caller,
    rq = (UpsertHabitLog p, context)
    /\ identity context = Some caller
    /\ User.id caller = u
    /\ outcome (server.upsertHabitLog p context) w
       = Returned (ok {| logId := l; mode := created |}).

(* ------------------------------------------------------------------ *)
(** ** What the further properties need *)

(** The row [createHabit] inserts for user [u] in world [w]. *)
Definition new_habit (input : HabitFields.t) (u : string) (w : World) : EcoHabits.row :=
  {| EcoHabits.id := uuid_source w (uuid_drawn w);
     EcoHabits.userId := u;
     EcoHabits.name := HabitFields.name input;
     EcoHabits.description := HabitFields.description input;
     EcoHabits.category := HabitFields.category input;
     EcoHabits.frequency := HabitFields.frequency input;
     EcoHabits.targetPerPeriod := HabitFields.targetPerPeriod input;
     EcoHabits.impactPerUnit := HabitFields.impactPerUnit input;
     EcoHabits.impactUnit := HabitFields.impactUnit input;
     EcoHabits.isActive := true;
     EcoHabits.createdAt := clock w (clock_read w);
     EcoHabits.updatedAt := clock w (clock_read w) |}.

(** [old], archived at time [now]. *)
Definition archived_row (now : Date) (old : EcoHabits.row) : EcoHabits.row :=
  {| EcoHabits.id := EcoHabits.id old;
     EcoHabits.userId := EcoHabits.userId old;
     EcoHabits.name := EcoHabits.name old;
     EcoHabits.description := EcoHabits.description old;
     EcoHabits.category := EcoHabits.category old;
     EcoHabits.frequency := EcoHabits.frequency old;
     EcoHabits.targetPerPeriod := EcoHabits.targetPerPeriod old;
     EcoHabits.impactPerUnit := EcoHabits.impactPerUnit old;
     EcoHabits.impactUnit := EcoHabits.impactUnit old;
     EcoHabits.isActive := false;
     EcoHabits.createdAt := EcoHabits.createdAt old;
     EcoHabits.updatedAt := now |}.

(** The request, served in [w], is answered with an error. *)
Definition threw (rq : Request) (w : World) : Prop :=
  match rq with
  | (CreateHabit p, context) => exists e, outcome (server.createHabit p context) w = Threw e
  | (UpdateHabit p, context) => exists e, outcome (server.updateHabit p context) w = Threw e
  | (ArchiveHabit p, context) => exists e, outcome (server.archiveHabit p context) w = Threw e
  | (ListMyHabits p, context) => exists e, outcome (server.listMyHabits p context) w = Threw e
  | (UpsertHabitLog p, context) =>
      exists e, outcome (server.upsertHabitLog p context) w = Threw e
  | (ListHabitLogs p, context) =>
      exists e, outcome (server.listHabitLogs p context) w = Threw e
  end.

(** The identity a request is made under, if any. *)
Definition caller (rq : Request) : option string :=
  match identity (snd rq) with
  | Some u => Some (User.id u)
  | None => None
  end.

(** [l'] is [l] with its rows related one by one by [R], followed by rows
    added at the end: nothing was removed, nothing reordered. *)
Definition grows {A} (R : A -> A -> Prop) (l l' : list A) : Prop :=
  exists kept added, l' = kept ++ added /\ Forall2 R l kept.

(** What no request changes in a stored habit: its id, its owner and its
    creation date; and an archived habit stays archived. *)
Definition habit_kept (old new : EcoHabits.row) : Prop :=
  EcoHabits.id new = EcoHabits.id old
  /\ EcoHabits.userId new = EcoHabits.userId old
  /\ EcoHabits.createdAt new = EcoHabits.createdAt old
  /\ (EcoHabits.isActive old = false -> EcoHabits.isActive new = false).

(** A row that does not belong to user [u] is as it was. *)
Definition foreign_habit_same (u : option string) (old new : EcoHabits.row) : Prop :=
  Some (EcoHabits.userId old) <> u -> new = old.

Definition foreign_log_same (u : option string) (old new : EcoHabitLogs.row) : Prop :=
  Some (EcoHabitLogs.userId old) <> u -> new = old.

(** Every log references a habit of the log's own user. *)
Definition logs_reference_owned_habits (w : World) : Prop :=
  forall l, In l (logs w) ->
            owns_habit w (EcoHabitLogs.userId l) (EcoHabitLogs.habitId l) = true.

(** The payload that edits log [l] of habit [h], giving it quantity [q]. *)
Definition edit_quantity (l h : string) (q : number) : LogPayload.t :=
  {| LogPayload.id := Some l; LogPayload.habitId := Some h;
     LogPayload.logDate := None; LogPayload.quantity := Some q;
     LogPayload.notes := None |}.

(** The habits of user [u]. *)
Definition habits_of (w : World) (u : string) : list EcoHabits.row :=
  filter (fun r => String.eqb (EcoHabits.userId r) u) (habits w).

(** Reads and writes among the statements. *)
Definition is_select (s : Statement) : bool :=
  match s with
  | SELECT _ => true
  | INSERT _ | UPDATE _ => false
  end.

(** The sample world, with an id generator that yields the id of a stored
    habit. *)
Definition colliding_world : World :=
  {| habits := habits Sample.world; logs := logs Sample.world; journal := [];
     uuid_source := fun _ => "H1"; uuid_drawn := 0;
     clock := clock Sample.world; clock_read := 0 |}.

(* ------------------------------------------------------------------ *)
(** * Properties *)

Unset Implicit Arguments.

(** ** Lists and where clauses *)

Lemma existsb_false_filter {A} (f : A -> bool) (l : list A) :
  existsb f l = false -> filter f l = [].
Proof.
  induction l as [|a l IH]; simpl; intro H; [reflexivity|].
  apply orb_false_iff in H. destruct H as [Ha Hl].
  rewrite Ha. auto.
Qed.

Lemma existsb_true_filter {A} (f : A -> bool) (l : list A) :
  existsb f l = true ->
  exists r, hd_error (filter f l) = Some r /\ In r l /\ f r = true.
Proof.
  induction l as [|a l IH]; simpl; intro H; [discriminate|].
  destruct (f a) eqn:Ha.
  - exists a. simpl. auto.
  - simpl in H. destruct (IH H) as (r & Hr & Hin & Hf).
    exists r. auto.
Qed.

Lemma NoDup_map_injective {A B} (f : A -> B) (l : list A) (a b : A) :
  NoDup (map f l) -> In a l -> In b l -> f a = f b -> a = b.
Proof.
  induction l as [|x l IH]; simpl; intros Hnd Ha Hb Hf; [contradiction|].
  inversion Hnd as [|? ? Hx Hl]; subst.
  destruct Ha as [Ha|Ha], Hb as [Hb|Hb]; subst; auto.
  - exfalso. apply Hx. rewrite Hf. now apply in_map.
  - exfalso. apply Hx. rewrite <- Hf. now apply in_map.
Qed.

Lemma owns_habit_spec (w : World) (u h : string) :
  owns_habit w u h = true <->
  exists r, In r (habits w) /\ EcoHabits.id r = h /\ EcoHabits.userId r = u.
Proof.
  unfold owns_habit. rewrite existsb_exists. split.
  - intros (r & Hin & Hr). apply andb_true_iff in Hr. destruct Hr as [H1 H2].
    apply String.eqb_eq in H1, H2. eauto.
  - intros (r & Hin & H1 & H2). exists r. split; [assumption|].
    subst. now rewrite !String.eqb_refl.
Qed.

Lemma owns_log_spec (w : World) (u l : string) :
  owns_log w u l = true <->
  exists r, In r (logs w) /\ EcoHabitLogs.id r = l /\ EcoHabitLogs.userId r = u.
Proof.
  unfold owns_log. rewrite existsb_exists. split.
  - intros (r & Hin & Hr). apply andb_true_iff in Hr. destruct Hr as [H1 H2].
    apply String.eqb_eq in H1, H2. eauto.
  - intros (r & Hin & H1 & H2). exists r. split; [assumption|].
    subst. now rewrite !String.eqb_refl.
Qed.

(** A habit of another user is not a habit of the caller: ids are unique. *)
Lemma foreign_habit_not_owned (w : World) (a b h : string) :
  well_formed w -> a <> b -> owns_habit w b h = true -> owns_habit w a h = false.
Proof.
  intros Hwf Hab Hb.
  destruct (owns_habit w a h) eqn:Ha; [exfalso|reflexivity].
  apply owns_habit_spec in Ha, Hb.
  destruct Ha as (r & Hr & Hid & Hu), Hb as (r' & Hr' & Hid' & Hu').
  assert (r = r') by
    (eapply NoDup_map_injective;
     [apply (habit_ids_unique Hwf)|assumption|assumption|congruence]).
  subst r'. congruence.
Qed.

Lemma foreign_log_not_owned (w : World) (a b l : string) :
  well_formed w -> a <> b -> owns_log w b l = true -> owns_log w a l = false.
Proof.
  intros Hwf Hab Hb.
  destruct (owns_log w a l) eqn:Ha; [exfalso|reflexivity].
  apply owns_log_spec in Ha, Hb.
  destruct Ha as (r & Hr & Hid & Hu), Hb as (r' & Hr' & Hid' & Hu').
  assert (r = r') by
    (eapply NoDup_map_injective;
     [apply (log_ids_unique Hwf)|assumption|assumption|congruence]).
  subst r'. congruence.
Qed.

(** ** The helpers of the action layer *)

Lemma requireUser_without_identity (context : ActionAPIContext) (w : World) :
  identity context = None ->
  requireUser context w =
  (Threw (ActionError UNAUTHORIZED "You must be signed in to perform this action."), w).
Proof. intro H. unfold requireUser. now rewrite H. Qed.

Lemma requireUser_with_identity (context : ActionAPIContext) (u : User.t) (w : World) :
  identity context = Some u -> requireUser context w = (Returned u, w).
Proof. intro H. unfold requireUser. now rewrite H. Qed.

Lemma getHabitForUser_not_owned (w : World) (u h : string) :
  owns_habit w u h = false ->
  getHabitForUser h u w = (Returned None, issue (SELECT T_EcoHabits) w).
Proof.
  intro H. unfold getHabitForUser, bind, db.select_EcoHabits, select_rows, ret.
  unfold owns_habit in H. apply existsb_false_filter in H.
  unfold and_, eq_, sql_eqb, SqlEq_text. now rewrite H.
Qed.

Lemma getHabitForUser_owned (w : World) (u h : string) :
  owns_habit w u h = true ->
  exists r, getHabitForUser h u w = (Returned (Some r), issue (SELECT T_EcoHabits) w)
            /\ In r (habits w) /\ EcoHabits.id r = h /\ EcoHabits.userId r = u.
Proof.
  intro H. unfold owns_habit in H. apply existsb_true_filter in H.
  destruct H as (r & Hhd & Hin & Hr).
  exists r. unfold getHabitForUser, bind, db.select_EcoHabits, select_rows, ret.
  unfold and_, eq_, sql_eqb, SqlEq_text. rewrite Hhd.
  apply andb_true_iff in Hr. destruct Hr as [H1 H2].
  apply String.eqb_eq in H1, H2. auto.
Qed.

Lemma if_truthy_nonempty (s : string) : s <> EmptyString -> if_truthy (Some s) = Some s.
Proof.
  intro H. unfold if_truthy, truthy.
  destruct (String.eqb s EmptyString) eqn:E; [apply String.eqb_eq in E; contradiction|reflexivity].
Qed.

Lemma owned_habit_id_nonempty (w : World) (u h : string) :
  well_formed w -> owns_habit w u h = true -> h <> EmptyString.
Proof.
  intros Hwf H. apply owns_habit_spec in H. destruct H as (r & Hin & Hid & _).
  subst h. intro He. apply (habit_ids_nonempty Hwf).
  rewrite <- He. now apply in_map.
Qed.

Lemma owned_log_id_nonempty (w : World) (u l : string) :
  well_formed w -> owns_log w u l = true -> l <> EmptyString.
Proof.
  intros Hwf H. apply owns_log_spec in H. destruct H as (r & Hin & Hid & _).
  subst l. intro He. apply (log_ids_nonempty Hwf).
  rewrite <- He. now apply in_map.
Qed.

Lemma select_logs_not_owned (w : World) (u l : string) :
  owns_log w u l = false ->
  select_rows (and_ (eq_ EcoHabitLogs.id l) (eq_ EcoHabitLogs.userId u)) (logs w) = [].
Proof.
  intro H. unfold owns_log in H. apply existsb_false_filter in H. exact H.
Qed.

Lemma select_logs_owned (w : World) (u l : string) :
  owns_log w u l = true ->
  exists r,
    hd_error (select_rows (and_ (eq_ EcoHabitLogs.id l) (eq_ EcoHabitLogs.userId u))
                          (logs w)) = Some r
    /\ In r (logs w) /\ EcoHabitLogs.id r = l /\ EcoHabitLogs.userId r = u.
Proof.
  intro H. unfold owns_log in H. apply existsb_true_filter in H.
  destruct H as (r & Hhd & Hin & Hr). exists r.
  apply andb_true_iff in Hr. destruct Hr as [H1 H2].
  apply String.eqb_eq in H1, H2. auto.
Qed.

(** ** The four guarded operations refuse the ids of another user *)

Lemma updateHabit_not_owned (p : HabitPayload.t) (input : HabitPatch.t)
      (context : ActionAPIContext) (u : User.t) (w : World) :
  updateHabitSchema p = inr input ->
  identity context = Some u ->
  owns_habit w (User.id u) (HabitPatch.id input) = false ->
  server.updateHabit p context w =
  (Threw (ActionError NOT_FOUND "Habit not found."), issue (SELECT T_EcoHabits) w).
Proof.
  intros Hp Hu Hn. unfold server.updateHabit, defineAction. rewrite Hp.
  unfold bind. rewrite (requireUser_with_identity _ _ _ Hu).
  now rewrite (getHabitForUser_not_owned _ _ _ Hn).
Qed.

Lemma archiveHabit_not_owned (p : ArchivePayload.t) (input : ArchiveInput.t)
      (context : ActionAPIContext) (u : User.t) (w : World) :
  archiveHabitSchema p = inr input ->
  identity context = Some u ->
  owns_habit w (User.id u) (ArchiveInput.id input) = false ->
  server.archiveHabit p context w =
  (Threw (ActionError NOT_FOUND "Habit not found."), issue (SELECT T_EcoHabits) w).
Proof.
  intros Hp Hu Hn. unfold server.archiveHabit, defineAction. rewrite Hp.
  unfold bind. rewrite (requireUser_with_identity _ _ _ Hu).
  now rewrite (getHabitForUser_not_owned _ _ _ Hn).
Qed.

Lemma upsertHabitLog_habit_not_owned (p : LogPayload.t) (input : LogInput.t)
      (context : ActionAPIContext) (u : User.t) (w : World) :
  upsertHabitLogSchema p = inr input ->
  identity context = Some u ->
  owns_habit w (User.id u) (LogInput.habitId input) = false ->
  server.upsertHabitLog p context w =
  (Threw (ActionError NOT_FOUND "Habit not found."), issue (SELECT T_EcoHabits) w).
Proof.
  intros Hp Hu Hn. unfold server.upsertHabitLog, defineAction. rewrite Hp.
  unfold bind. rewrite (requireUser_with_identity _ _ _ Hu).
  now rewrite (getHabitForUser_not_owned _ _ _ Hn).
Qed.

Lemma upsertHabitLog_log_not_owned (p : LogPayload.t) (input : LogInput.t)
      (context : ActionAPIContext) (u : User.t) (l : string) (w : World) :
  upsertHabitLogSchema p = inr input ->
  identity context = Some u ->
  owns_habit w (User.id u) (LogInput.habitId input) = true ->
  if_truthy (LogInput.id input) = Some l ->
  owns_log w (User.id u) l = false ->
  server.upsertHabitLog p context w =
  (Threw (ActionError NOT_FOUND "Habit log not found."),
   issue (SELECT T_EcoHabitLogs) (issue (SELECT T_EcoHabits) w)).
Proof.
  intros Hp Hu Hh Hl Hn. unfold server.upsertHabitLog, defineAction. rewrite Hp.
  unfold bind. rewrite (requireUser_with_identity _ _ _ Hu).
  destruct (getHabitForUser_owned _ _ _ Hh) as (r & Hr & _). rewrite Hr.
  rewrite Hl. unfold db.select_EcoHabitLogs. cbn [logs issue].
  now rewrite (select_logs_not_owned _ _ _ Hn).
Qed.

Lemma listHabitLogs_not_owned (h : string) (context : ActionAPIContext)
      (u : User.t) (w : World) :
  h <> EmptyString ->
  identity context = Some u ->
  owns_habit w (User.id u) h = false ->
  server.listHabitLogs (Some {| LogFilter.habitId := Some h |}) context w =
  (Threw (ActionError NOT_FOUND "Habit not found."), issue (SELECT T_EcoHabits) w).
Proof.
  intros Hne Hu Hn. unfold server.listHabitLogs, defineAction, listHabitLogsSchema.
  cbn [nullish LogFilter.habitId]. rewrite (if_truthy_nonempty _ Hne).
  unfold bind. rewrite (requireUser_with_identity _ _ _ Hu).
  now rewrite (getHabitForUser_not_owned _ _ _ Hn).
Qed.

(** C1.  Caller A, signed in, calls updateHabit, archiveHabit,
    upsertHabitLog or listHabitLogs with the id of a habit (or, for
    upsertHabitLog, of a log) that exists and belongs to another user B: the
    call is answered NOT_FOUND, which carries none of B's data, and the rows
    of both tables are as they were. *)
Theorem C1_ids_of_another_user_are_not_found :
  forall (w : World) (context : ActionAPIContext) (A : User.t) (B : string),
    well_formed w ->
    identity context = Some A ->
    User.id A <> B ->
    (forall p input,
        updateHabitSchema p = inr input ->
        owns_habit w B (HabitPatch.id input) = true ->
        not_found_untouched (server.updateHabit p context) w)
    /\ (forall p input,
           archiveHabitSchema p = inr input ->
           owns_habit w B (ArchiveInput.id input) = true ->
           not_found_untouched (server.archiveHabit p context) w)
    /\ (forall p input,
           upsertHabitLogSchema p = inr input ->
           owns_habit w B (LogInput.habitId input) = true ->
           not_found_untouched (server.upsertHabitLog p context) w)
    /\ (forall p input l,
           upsertHabitLogSchema p = inr input ->
           LogInput.id input = Some l ->
           owns_log w B l = true ->
           not_found_untouched (server.upsertHabitLog p context) w)
    /\ (forall h,
           owns_habit w B h = true ->
           not_found_untouched
             (server.listHabitLogs (Some {| LogFilter.habitId := Some h |}) context) w).
Proof.
  intros w context A B Hwf HA HAB.
  unfold not_found_untouched, outcome, after.
  split; [|split; [|split; [|split]]].
  - intros p input Hp HB.
    rewrite (updateHabit_not_owned _ _ _ _ _ Hp HA (foreign_habit_not_owned _ _ _ _ Hwf HAB HB)).
    simpl. auto.
  - intros p input Hp HB.
    rewrite (archiveHabit_not_owned _ _ _ _ _ Hp HA (foreign_habit_not_owned _ _ _ _ Hwf HAB HB)).
    simpl. auto.
  - intros p input Hp HB.
    rewrite (upsertHabitLog_habit_not_owned _ _ _ _ _ Hp HA (foreign_habit_not_owned _ _ _ _ Hwf HAB HB)).
    simpl. auto.
  - intros p input l Hp Hl HB.
    destruct (owns_habit w (User.id A) (LogInput.habitId input)) eqn:Hh.
    + rewrite (upsertHabitLog_log_not_owned _ _ _ _ l _ Hp HA Hh
                 (eq_trans (f_equal if_truthy Hl)
                           (if_truthy_nonempty _ (owned_log_id_nonempty _ _ _ Hwf HB)))
                 (foreign_log_not_owned _ _ _ _ Hwf HAB HB)).
      simpl. auto.
    + rewrite (upsertHabitLog_habit_not_owned _ _ _ _ _ Hp HA Hh). simpl. auto.
  - intros h HB.
    rewrite (listHabitLogs_not_owned _ _ _ _ (owned_habit_id_nonempty _ _ _ Hwf HB) HA
               (foreign_habit_not_owned _ _ _ _ Hwf HAB HB)).
    simpl. auto.
Qed.

Lemma sample_world_well_formed : well_formed Sample.world.
Proof.
  constructor; simpl.
  - repeat constructor; simpl; intuition discriminate.
  - repeat constructor; simpl; intuition discriminate.
  - intuition discriminate.
  - intuition discriminate.
Qed.

Lemma C1_witness :
  well_formed Sample.world
  /\ identity Sample.alice = Some {| User.id := "alice" |}
  /\ "alice" <> "bob"
  /\ not_found_untouched
       (server.updateHabit (Sample.habit_payload (Some "H2") None (Some "water"))
                           Sample.alice) Sample.world
  /\ not_found_untouched
       (server.upsertHabitLog (Sample.log_payload (Some "L2") (Some "H1") None)
                              Sample.alice) Sample.world
  /\ not_found_untouched
       (server.listHabitLogs (Some {| LogFilter.habitId := Some "H2" |})
                             Sample.alice) Sample.world.
Proof.
  assert (Hne : "alice" <> "bob") by discriminate.
  destruct (C1_ids_of_another_user_are_not_found
              Sample.world Sample.alice {| User.id := "alice" |} "bob"
              sample_world_well_formed eq_refl Hne)
    as (Hupdate & _ & _ & Hlog & Hlist).
  split; [exact sample_world_well_formed|].
  split; [reflexivity|].
  split; [exact Hne|].
  split; [apply (Hupdate (Sample.habit_payload (Some "H2") None (Some "water")) _
                         eq_refl eq_refl)|].
  split; [apply (Hlog (Sample.log_payload (Some "L2") (Some "H1") None) _ "L2"
                      eq_refl eq_refl eq_refl)|].
  apply (Hlist "H2" eq_refl).
Defined.

(** ** upsertHabitLog checks the habit before anything else *)

Lemma upsertHabitLog_returns_only_if_owned (p : LogPayload.t) (input : LogInput.t)
      (context : ActionAPIContext) (u : User.t) (w : World) (r : Envelope LogId) :
  upsertHabitLogSchema p = inr input ->
  identity context = Some u ->
  outcome (server.upsertHabitLog p context) w = Returned r ->
  owns_habit w (User.id u) (LogInput.habitId input) = true.
Proof.
  intros Hp Hu Hr.
  destruct (owns_habit w (User.id u) (LogInput.habitId input)) eqn:Hown; [reflexivity|].
  unfold outcome in Hr.
  rewrite (upsertHabitLog_habit_not_owned _ _ _ _ _ Hp Hu Hown) in Hr.
  discriminate.
Qed.

(** C2.  A call of upsertHabitLog by a signed-in caller whose [habitId] is
    not the id of a habit of the caller is answered NOT_FOUND after the one
    SELECT on the habits and before any INSERT or UPDATE, whether or not the
    payload has a log [id]; so a call that returns, on the update path as on
    the create path, had a [habitId] owned by the caller. *)
Theorem C2_upsertHabitLog_refuses_a_habit_not_owned :
  forall (p : LogPayload.t) (input : LogInput.t) (context : ActionAPIContext)
         (u : User.t) (w : World),
    upsertHabitLogSchema p = inr input ->
    identity context = Some u ->
    (owns_habit w (User.id u) (LogInput.habitId input) = false ->
     outcome (server.upsertHabitLog p context) w
     = Threw (ActionError NOT_FOUND "Habit not found.")
     /\ journal (after (server.upsertHabitLog p context) w)
        = journal w ++ [SELECT T_EcoHabits]
     /\ habits (after (server.upsertHabitLog p context) w) = habits w
     /\ logs (after (server.upsertHabitLog p context) w) = logs w)
    /\ (forall r,
           outcome (server.upsertHabitLog p context) w = Returned r ->
           owns_habit w (User.id u) (LogInput.habitId input) = true).
Proof.
  intros p input context u w Hp Hu. split.
  - intro Hown. unfold outcome, after.
    rewrite (upsertHabitLog_habit_not_owned _ _ _ _ _ Hp Hu Hown).
    simpl. auto.
  - intros r Hr. exact (upsertHabitLog_returns_only_if_owned _ _ _ _ _ _ Hp Hu Hr).
Qed.

Lemma C2_witness :
  upsertHabitLogSchema (Sample.log_payload (Some "L1") (Some "H2") None)
  = inr {| LogInput.id := Some "L1"; LogInput.habitId := "H2";
           LogInput.logDate := None; LogInput.quantity := None;
           LogInput.notes := None |}
  /\ identity Sample.alice = Some {| User.id := "alice" |}
  /\ owns_habit Sample.world "alice" "H2" = false
  /\ outcome (server.upsertHabitLog (Sample.log_payload (Some "L1") (Some "H2") None)
                                    Sample.alice) Sample.world
     = Threw (ActionError NOT_FOUND "Habit not found.")
  /\ logs (after (server.upsertHabitLog (Sample.log_payload (Some "L1") (Some "H2") None)
                                        Sample.alice) Sample.world)
     = logs Sample.world.
Proof.
  destruct (C2_upsertHabitLog_refuses_a_habit_not_owned
              (Sample.log_payload (Some "L1") (Some "H2") None) _
              Sample.alice {| User.id := "alice" |} Sample.world eq_refl eq_refl)
    as [Hrefused _].
  destruct (Hrefused eq_refl) as (Hout & _ & _ & Hlogs).
  repeat split; try reflexivity; assumption.
Defined.

(** ** Calls without identity *)

(** C3, as the code has it.  A call without identity never reaches the
    store: the world after it is the world before it, journal included.
    What it is answered with depends on the payload: UNAUTHORIZED when the
    action's schema accepts the payload, the input error when it does not
    (the schema is applied before the handler, whose first step is
    requireUser). *)
Theorem C3_without_identity_no_store_access :
  forall (context : ActionAPIContext) (w : World),
    identity context = None ->
    (forall p, server.createHabit p context w
               = (Threw (answer_without_identity (habitFieldsSchema p)), w))
    /\ (forall p, server.updateHabit p context w
                  = (Threw (answer_without_identity (updateHabitSchema p)), w))
    /\ (forall p, server.archiveHabit p context w
                  = (Threw (answer_without_identity (archiveHabitSchema p)), w))
    /\ (forall p, server.listMyHabits p context w
                  = (Threw (answer_without_identity (listMyHabitsSchema p)), w))
    /\ (forall p, server.upsertHabitLog p context w
                  = (Threw (answer_without_identity (upsertHabitLogSchema p)), w))
    /\ (forall p, server.listHabitLogs p context w
                  = (Threw (answer_without_identity (listHabitLogsSchema p)), w)).
Proof.
  intros context w Hid.
  pose proof (requireUser_without_identity context w Hid) as Hreq.
  repeat split; intro p.
  - unfold server.createHabit, defineAction.
    destruct (habitFieldsSchema p); [reflexivity|].
    unfold bind. now rewrite Hreq.
  - unfold server.updateHabit, defineAction.
    destruct (updateHabitSchema p); [reflexivity|].
    unfold bind. now rewrite Hreq.
  - unfold server.archiveHabit, defineAction.
    destruct (archiveHabitSchema p); [reflexivity|].
    unfold bind. now rewrite Hreq.
  - unfold server.listMyHabits, defineAction.
    destruct (listMyHabitsSchema p); [reflexivity|].
    unfold bind. now rewrite Hreq.
  - unfold server.upsertHabitLog, defineAction.
    destruct (upsertHabitLogSchema p); [reflexivity|].
    unfold bind. now rewrite Hreq.
  - unfold server.listHabitLogs, defineAction.
    destruct (listHabitLogsSchema p); [reflexivity|].
    unfold bind. now rewrite Hreq.
Qed.

Lemma C3_witness :
  identity Sample.anonymous = None
  /\ server.archiveHabit {| ArchivePayload.id := Some "H1" |} Sample.anonymous Sample.world
     = (Threw (ActionError UNAUTHORIZED "You must be signed in to perform this action."),
        Sample.world)
  /\ server.upsertHabitLog (Sample.log_payload None None None) Sample.no_locals Sample.world
     = (Threw (ActionInputError [invalid_type "habitId"]), Sample.world).
Proof.
  split; [reflexivity|]. split.
  - apply (C3_without_identity_no_store_access Sample.anonymous Sample.world eq_refl).
  - apply (C3_without_identity_no_store_access Sample.no_locals Sample.world eq_refl).
Defined.

(** C3 as the specification words it fails: createHabit, called without
    identity with an empty [name], is answered with the input error, not
    with UNAUTHORIZED. *)
Lemma C3_counterexample :
  identity Sample.anonymous = None
  /\ outcome (server.createHabit (Sample.habit_payload None (Some EmptyString) None)
                                 Sample.anonymous) Sample.world
     = Threw (ActionInputError [too_small "name"])
  /\ ~ (exists message,
           outcome (server.createHabit (Sample.habit_payload None (Some EmptyString) None)
                                       Sample.anonymous) Sample.world
           = Threw (ActionError UNAUTHORIZED message)).
Proof.
  split; [reflexivity|]. split; [reflexivity|].
  intros [message H]. discriminate H.
Qed.

(** ** updateHabit with an empty patch *)

(** C5.  updateHabit with a payload that has [id] and no other key is
    answered with the input error of the schema's refinement; the world
    after the call is the world before it, journal included, whoever calls
    and whatever the habits table holds. *)
Theorem C5_updateHabit_rejects_only_id :
  forall (i : string) (context : ActionAPIContext) (w : World),
    server.updateHabit (only_id i) context w
    = (Threw (ActionInputError [custom "At least one field must be provided to update."]),
       w).
Proof. intros i context w. reflexivity. Qed.

(** ** updateHabit on a habit of the caller *)

Lemma Forall2_update_rows {R} (P : R -> R -> Prop) (s : R -> R) (w : R -> bool)
      (rows : list R) :
  (forall r, In r rows -> P r (if w r then s r else r)) ->
  Forall2 P rows (update_rows s w rows).
Proof.
  unfold update_rows. induction rows as [|r rows IH]; simpl; intro H.
  - constructor.
  - constructor; [apply H; now left|]. apply IH. intros r' Hr'. apply H. now right.
Qed.

Lemma updateHabit_owned (p : HabitPayload.t) (input : HabitPatch.t)
      (context : ActionAPIContext) (u : User.t) (w : World) :
  updateHabitSchema p = inr input ->
  identity context = Some u ->
  owns_habit w (User.id u) (HabitPatch.id input) = true ->
  outcome (server.updateHabit p context) w
  = Returned (ok {| habitId := HabitPatch.id input |})
  /\ logs (after (server.updateHabit p context) w) = logs w
  /\ habits (after (server.updateHabit p context) w)
     = update_rows
         (EcoHabits.apply
            {| EcoHabits.set_id := None;
               EcoHabits.set_userId := None;
               EcoHabits.set_name := HabitPatch.name input;
               EcoHabits.set_description := HabitPatch.description input;
               EcoHabits.set_category := HabitPatch.category input;
               EcoHabits.set_frequency := HabitPatch.frequency input;
               EcoHabits.set_targetPerPeriod := HabitPatch.targetPerPeriod input;
               EcoHabits.set_impactPerUnit := HabitPatch.impactPerUnit input;
               EcoHabits.set_impactUnit := HabitPatch.impactUnit input;
               EcoHabits.set_isActive := None;
               EcoHabits.set_createdAt := None;
               EcoHabits.set_updatedAt := Some (clock w (clock_read w)) |})
         (is_habit (User.id u) (HabitPatch.id input))
         (habits w).
Proof.
  intros Hp Hu Hown. unfold outcome, after, server.updateHabit, defineAction.
  rewrite Hp. unfold bind. rewrite (requireUser_with_identity _ _ _ Hu).
  destruct (getHabitForUser_owned _ _ _ Hown) as (r & Hr & _). rewrite Hr.
  simpl. auto.
Qed.

(** C6.  updateHabit on a habit of the caller returns the habit's id; in
    the habits table the row of that habit has the patch's values in the
    columns the patch defines and the time of the call in [updatedAt], and
    its other columns ([id], [userId], [isActive], [createdAt] and every
    column the patch leaves undefined) are as before; every other row, and
    the logs table, are as before. *)
Theorem C6_updateHabit_changes_given_fields_only :
  forall (p : HabitPayload.t) (input : HabitPatch.t) (context : ActionAPIContext)
         (u : User.t) (w : World),
    updateHabitSchema p = inr input ->
    identity context = Some u ->
    owns_habit w (User.id u) (HabitPatch.id input) = true ->
    outcome (server.updateHabit p context) w
    = Returned (ok {| habitId := HabitPatch.id input |})
    /\ logs (after (server.updateHabit p context) w) = logs w
    /\ Forall2
         (fun old new =>
            if is_habit (User.id u) (HabitPatch.id input) old
            then patched input (clock w (clock_read w)) old new
            else new = old)
         (habits w)
         (habits (after (server.updateHabit p context) w)).
Proof.
  intros p input context u w Hp Hu Hown.
  destruct (updateHabit_owned p input context u w Hp Hu Hown) as (Hout & Hlogs & Hhabits).
  split; [exact Hout|]. split; [exact Hlogs|].
  rewrite Hhabits. apply Forall2_update_rows.
  intros r _. destruct (is_habit (User.id u) (HabitPatch.id input) r); [|reflexivity].
  unfold patched, EcoHabits.apply. simpl.
  repeat split;
    match goal with
    | |- context [HabitPatch.name input] => destruct (HabitPatch.name input)
    | |- context [HabitPatch.description input] => destruct (HabitPatch.description input)
    | |- context [HabitPatch.category input] => destruct (HabitPatch.category input)
    | |- context [HabitPatch.frequency input] => destruct (HabitPatch.frequency input)
    | |- context [HabitPatch.targetPerPeriod input] =>
        destruct (HabitPatch.targetPerPeriod input)
    | |- context [HabitPatch.impactPerUnit input] =>
        destruct (HabitPatch.impactPerUnit input)
    | |- context [HabitPatch.impactUnit input] => destruct (HabitPatch.impactUnit input)
    | |- _ => idtac
    end; reflexivity.
Qed.

Lemma C6_witness :
  identity Sample.alice = Some {| User.id := "alice" |}
  /\ owns_habit Sample.world "alice" "H1" = true
  /\ Forall2
       (fun old new =>
          if is_habit "alice" "H1" old
          then patched
                 {| HabitPatch.id := "H1"; HabitPatch.name := None;
                    HabitPatch.description := None;
                    HabitPatch.category := Some "water";
                    HabitPatch.frequency := None;
                    HabitPatch.targetPerPeriod := None;
                    HabitPatch.impactPerUnit := None;
                    HabitPatch.impactUnit := None |}
                 2000%Z old new
          else new = old)
       (habits Sample.world)
       (habits (after (server.updateHabit
                         (Sample.habit_payload (Some "H1") None (Some "water"))
                         Sample.alice) Sample.world)).
Proof.
  split; [reflexivity|]. split; [reflexivity|].
  apply (C6_updateHabit_changes_given_fields_only
           (Sample.habit_payload (Some "H1") None (Some "water")) _
           Sample.alice {| User.id := "alice" |} Sample.world
           eq_refl eq_refl eq_refl).
Defined.

(** ** The two paths of upsertHabitLog *)

Lemma if_truthy_Some (v : option string) (l : string) :
  if_truthy v = Some l <-> v = Some l /\ l <> EmptyString.
Proof.
  unfold if_truthy, truthy. destruct v as [s|]; [|split; [discriminate|intros [H _]; discriminate]].
  destruct (String.eqb s EmptyString) eqn:E; simpl.
  - apply String.eqb_eq in E. split; [discriminate|].
    intros [H Hne]. congruence.
  - apply String.eqb_neq in E. split.
    + intro H. inversion H; subst. auto.
    + intros [H _]. exact H.
Qed.

Lemma if_truthy_None (v : option string) :
  if_truthy v = None <-> v = None \/ v = Some EmptyString.
Proof.
  unfold if_truthy, truthy. destruct v as [s|]; [|tauto].
  destruct (String.eqb s EmptyString) eqn:E; simpl.
  - apply String.eqb_eq in E. subst. tauto.
  - apply String.eqb_neq in E. split; [discriminate|].
    intros [H|H]; [discriminate|congruence].
Qed.

Lemma upsertHabitLog_update_path (p : LogPayload.t) (input : LogInput.t)
      (context : ActionAPIContext) (u : User.t) (l : string) (w : World) :
  upsertHabitLogSchema p = inr input ->
  identity context = Some u ->
  owns_habit w (User.id u) (LogInput.habitId input) = true ->
  if_truthy (LogInput.id input) = Some l ->
  owns_log w (User.id u) l = true ->
  exists existingLog,
    In existingLog (logs w)
    /\ is_log (User.id u) l existingLog = true
    /\ server.upsertHabitLog p context w
       = (Returned (ok {| logId := l; mode := updated |}),
          with_logs
            (update_rows
               (EcoHabitLogs.apply
                  {| EcoHabitLogs.set_id := None;
                     EcoHabitLogs.set_habitId := Some (LogInput.habitId input);
                     EcoHabitLogs.set_userId := None;
                     EcoHabitLogs.set_logDate :=
                       Some (nullish (LogInput.logDate input)
                                     (EcoHabitLogs.logDate existingLog));
                     EcoHabitLogs.set_quantity := LogInput.quantity input;
                     EcoHabitLogs.set_notes := LogInput.notes input;
                     EcoHabitLogs.set_createdAt := None |})
               (is_log (User.id u) l)
               (logs w))
            (issue (UPDATE T_EcoHabitLogs)
                   (issue (SELECT T_EcoHabitLogs) (issue (SELECT T_EcoHabits) w)))).
Proof.
  intros Hp Hu Hh Hl Hown.
  destruct (select_logs_owned _ _ _ Hown) as (r & Hhd & Hin & Hid & Huid).
  exists r. split; [exact Hin|]. split.
  { unfold is_log. rewrite Hid, Huid, !String.eqb_refl. reflexivity. }
  unfold server.upsertHabitLog, defineAction. rewrite Hp.
  unfold bind. rewrite (requireUser_with_identity _ _ _ Hu).
  destruct (getHabitForUser_owned _ _ _ Hh) as (r' & Hr' & _). rewrite Hr'.
  rewrite Hl. unfold db.select_EcoHabitLogs. cbn [logs issue].
  rewrite Hhd. reflexivity.
Qed.

Lemma not_in_ids_existsb (rows : list EcoHabitLogs.row) (i : string) :
  ~ In i (map EcoHabitLogs.id rows) ->
  existsb (fun r' => String.eqb (EcoHabitLogs.id r') i) rows = false.
Proof.
  intro H. destruct (existsb _ rows) eqn:E; [exfalso|reflexivity].
  apply existsb_exists in E. destruct E as (r & Hin & Hr).
  apply String.eqb_eq in Hr. apply H. rewrite <- Hr. now apply in_map.
Qed.

Lemma upsertHabitLog_create_path (p : LogPayload.t) (input : LogInput.t)
      (context : ActionAPIContext) (u : User.t) (w : World) :
  upsertHabitLogSchema p = inr input ->
  identity context = Some u ->
  owns_habit w (User.id u) (LogInput.habitId input) = true ->
  if_truthy (LogInput.id input) = None ->
  next_uuid_unused w ->
  outcome (server.upsertHabitLog p context) w
  = Returned (ok {| logId := uuid_source w (uuid_drawn w); mode := created |})
  /\ logs (after (server.upsertHabitLog p context) w)
     = logs w ++ [new_log input (User.id u) w]
  /\ habits (after (server.upsertHabitLog p context) w) = habits w
  /\ journal (after (server.upsertHabitLog p context) w)
     = journal w ++ [SELECT T_EcoHabits; INSERT T_EcoHabitLogs].
Proof.
  intros Hp Hu Hh Hl Hfresh.
  unfold outcome, after, server.upsertHabitLog, defineAction. rewrite Hp.
  unfold bind. rewrite (requireUser_with_identity _ _ _ Hu).
  destruct (getHabitForUser_owned _ _ _ Hh) as (r' & Hr' & _). rewrite Hr'.
  rewrite Hl. apply not_in_ids_existsb in Hfresh.
  unfold randomUUID, new_Date, db.insert_EcoHabitLogs, insert_row, new_log.
  destruct (LogInput.logDate input) as [d|]; cbn -[existsb String.eqb];
    rewrite Hfresh; cbn; rewrite <- app_assoc; auto.
Qed.

Lemma update_logs_keeps_ids (s : EcoHabitLogs.values) (w : EcoHabitLogs.row -> bool)
      (rows : list EcoHabitLogs.row) :
  EcoHabitLogs.set_id s = None ->
  map EcoHabitLogs.id (update_rows (EcoHabitLogs.apply s) w rows)
  = map EcoHabitLogs.id rows.
Proof.
  intro Hs. unfold update_rows. rewrite map_map. apply map_ext.
  intro r. destruct (w r); [|reflexivity].
  unfold EcoHabitLogs.apply. simpl. now rewrite Hs.
Qed.

(** C4, as the code has it.  With a signed-in caller and a [habitId] of the
    caller, upsertHabitLog branches on the truthiness of the payload's [id]
    and on nothing else.  When [id] is absent or the empty string, the call
    inserts one log whose id is the value crypto.randomUUID() yields for it
    and returns that id with mode "created", provided no stored log has that
    id yet (an insert under an id that is taken is refused by the primary key).
    When [id] is a non-empty string, the call takes the update path: it
    returns that id with mode "updated", the table keeping its ids, when the
    caller has a log of that id, and is answered NOT_FOUND, the table
    untouched, when the caller has none. *)
Theorem C4_upsertHabitLog_branches_on_truthy_id :
  forall (p : LogPayload.t) (input : LogInput.t) (context : ActionAPIContext)
         (u : User.t) (w : World),
    upsertHabitLogSchema p = inr input ->
    identity context = Some u ->
    owns_habit w (User.id u) (LogInput.habitId input) = true ->
    (LogInput.id input = None \/ LogInput.id input = Some EmptyString ->
     next_uuid_unused w ->
     outcome (server.upsertHabitLog p context) w
     = Returned (ok {| logId := uuid_source w (uuid_drawn w); mode := created |})
     /\ logs (after (server.upsertHabitLog p context) w)
        = logs w ++ [new_log input (User.id u) w])
    /\ (forall l,
           LogInput.id input = Some l ->
           l <> EmptyString ->
           (owns_log w (User.id u) l = true ->
            outcome (server.upsertHabitLog p context) w
            = Returned (ok {| logId := l; mode := updated |})
            /\ map EcoHabitLogs.id (logs (after (server.upsertHabitLog p context) w))
               = map EcoHabitLogs.id (logs w))
           /\ (owns_log w (User.id u) l = false ->
               outcome (server.upsertHabitLog p context) w
               = Threw (ActionError NOT_FOUND "Habit log not found.")
               /\ logs (after (server.upsertHabitLog p context) w) = logs w)).
Proof.
  intros p input context u w Hp Hu Hh. split.
  - intros Hid Hfresh. apply if_truthy_None in Hid.
    destruct (upsertHabitLog_create_path p input context u w Hp Hu Hh Hid Hfresh)
      as (Hout & Hlogs & _).
    auto.
  - intros l Hid Hne.
    assert (Hl : if_truthy (LogInput.id input) = Some l)
      by (apply if_truthy_Some; auto).
    split; intro Hown.
    + destruct (upsertHabitLog_update_path p input context u l w Hp Hu Hh Hl Hown)
        as (r & _ & _ & Heq).
      unfold outcome, after. rewrite Heq. simpl. split; [reflexivity|].
      now apply update_logs_keeps_ids.
    + unfold outcome, after.
      rewrite (upsertHabitLog_log_not_owned p input context u l w Hp Hu Hh Hl Hown).
      simpl. auto.
Qed.

Lemma C4_witness :
  identity Sample.alice = Some {| User.id := "alice" |}
  /\ owns_habit Sample.world "alice" "H1" = true
  /\ owns_log Sample.world "alice" "L1" = true
  /\ outcome (server.upsertHabitLog (Sample.log_payload (Some "L1") (Some "H1") (Some (2 # 1)))
                                    Sample.alice) Sample.world
     = Returned (ok {| logId := "L1"; mode := updated |})
  /\ outcome (server.upsertHabitLog (Sample.log_payload None (Some "H1") (Some (1 # 1)))
                                    Sample.alice) Sample.world
     = Returned (ok {| logId := "U0"; mode := created |}).
Proof.
  split; [reflexivity|]. split; [reflexivity|]. split; [reflexivity|]. split.
  - destruct (C4_upsertHabitLog_branches_on_truthy_id
                (Sample.log_payload (Some "L1") (Some "H1") (Some (2 # 1))) _
                Sample.alice {| User.id := "alice" |} Sample.world
                eq_refl eq_refl eq_refl) as [_ Hupdate].
    assert (Hne : "L1" <> EmptyString) by discriminate.
    destruct (Hupdate "L1" eq_refl Hne) as [Hfound _].
    exact (proj1 (Hfound eq_refl)).
  - destruct (C4_upsertHabitLog_branches_on_truthy_id
                (Sample.log_payload None (Some "H1") (Some (1 # 1))) _
                Sample.alice {| User.id := "alice" |} Sample.world
                eq_refl eq_refl eq_refl) as [Hcreate _].
    assert (Hfresh : next_uuid_unused Sample.world)
      by (unfold next_uuid_unused; simpl; intuition discriminate).
    exact (proj1 (Hcreate (or_introl eq_refl) Hfresh)).
Defined.

(** C4 as the specification words it fails: a payload whose [id] is present
    and is the empty string does not take the update path; the call inserts
    a log and returns mode "created", although the caller has no log of
    that id. *)
Lemma C4_counterexample :
  LogPayload.id (Sample.log_payload (Some EmptyString) (Some "H1") None) = Some EmptyString
  /\ owns_log Sample.world "alice" EmptyString = false
  /\ outcome (server.upsertHabitLog (Sample.log_payload (Some EmptyString) (Some "H1") None)
                                    Sample.alice) Sample.world
     = Returned (ok {| logId := "U0"; mode := created |})
  /\ map EcoHabitLogs.id
         (logs (after (server.upsertHabitLog (Sample.log_payload (Some EmptyString) (Some "H1") None)
                                             Sample.alice) Sample.world))
     = ["L1"; "L2"; "U0"].
Proof. repeat split. Qed.

(** ** What the update path writes *)

(** What the update path of upsertHabitLog does to the stored log.  On that
    path (a signed-in caller, a [habitId] of the caller, the [id] of a log of
    the caller) the stored log gets the input's [habitId]; it gets the input's
    [logDate], [quantity] and [notes] where the input supplies them and
    keeps its stored value of each where the input does not: for [logDate]
    by the fallback in the code, for [quantity] and [notes] because the
    update skips a key whose value is undefined.  [id], [userId] and
    [createdAt] stay, and so does every other row. *)
Lemma update_path_writes_supplied_values :
  forall (p : LogPayload.t) (input : LogInput.t) (context : ActionAPIContext)
         (u : User.t) (l : string) (w : World),
    well_formed w ->
    upsertHabitLogSchema p = inr input ->
    identity context = Some u ->
    owns_habit w (User.id u) (LogInput.habitId input) = true ->
    LogInput.id input = Some l ->
    owns_log w (User.id u) l = true ->
    outcome (server.upsertHabitLog p context) w
    = Returned (ok {| logId := l; mode := updated |})
    /\ Forall2
         (fun old new => new = if is_log (User.id u) l old then edited input old else old)
         (logs w)
         (logs (after (server.upsertHabitLog p context) w)).
Proof.
  intros p input context u l w Hwf Hp Hu Hh Hid Hown.
  assert (Hl : if_truthy (LogInput.id input) = Some l).
  { apply if_truthy_Some. split; [exact Hid|].
    exact (owned_log_id_nonempty w (User.id u) l Hwf Hown). }
  destruct (upsertHabitLog_update_path p input context u l w Hp Hu Hh Hl Hown)
    as (existing & Hin & Hex & Heq).
  unfold outcome, after. rewrite Heq. simpl. split; [reflexivity|].
  apply Forall2_update_rows. intros r Hr.
  destruct (is_log (User.id u) l r) eqn:Hr'; [|reflexivity].
  assert (r = existing).
  { apply (NoDup_map_injective EcoHabitLogs.id (logs w) r existing
             (log_ids_unique Hwf) Hr Hin).
    unfold is_log in Hr', Hex.
    apply andb_true_iff in Hr', Hex. destruct Hr' as [H1 _], Hex as [H2 _].
    apply String.eqb_eq in H1, H2. congruence. }
  subst existing. unfold EcoHabitLogs.apply, edited. simpl.
  destruct (LogInput.logDate input), (LogInput.quantity input), (LogInput.notes input);
    reflexivity.
Qed.

Lemma update_path_writes_supplied_values_example :
  well_formed Sample.world
  /\ owns_log Sample.world "alice" "L1" = true
  /\ Forall2
       (fun old new =>
          new = if is_log "alice" "L1" old
                then edited {| LogInput.id := Some "L1"; LogInput.habitId := "H1";
                               LogInput.logDate := None;
                               LogInput.quantity := Some (2 # 1);
                               LogInput.notes := None |} old
                else old)
       (logs Sample.world)
       (logs (after (server.upsertHabitLog
                       (Sample.log_payload (Some "L1") (Some "H1") (Some (2 # 1)))
                       Sample.alice) Sample.world)).
Proof.
  split; [exact sample_world_well_formed|]. split; [reflexivity|].
  apply (update_path_writes_supplied_values
           (Sample.log_payload (Some "L1") (Some "H1") (Some (2 # 1))) _
           Sample.alice {| User.id := "alice" |} "L1" Sample.world
           sample_world_well_formed eq_refl eq_refl eq_refl eq_refl eq_refl).
Defined.

(** C7.  The handler passes [quantity] and [notes] to the update with no
    fallback, beside the explicit fallback of [logDate], so as to overwrite
    the stored values with the input's; but the update skips a key whose
    value is undefined, and an update that leaves both out does not clear
    them.  Here alice edits her log L1 (quantity 1, notes "rainy") of habit
    H1 with a payload that has neither: the call returns mode "updated" and
    the stored log still has quantity 1 and notes "rainy". *)
Theorem C7_omitted_quantity_and_notes_are_kept :
  LogPayload.quantity (Sample.log_payload (Some "L1") (Some "H1") None) = None
  /\ LogPayload.notes (Sample.log_payload (Some "L1") (Some "H1") None) = None
  /\ outcome (server.upsertHabitLog (Sample.log_payload (Some "L1") (Some "H1") None)
                                    Sample.alice) Sample.world
     = Returned (ok {| logId := "L1"; mode := updated |})
  /\ map (fun r => (EcoHabitLogs.id r, EcoHabitLogs.quantity r, EcoHabitLogs.notes r))
         (logs (after (server.upsertHabitLog (Sample.log_payload (Some "L1") (Some "H1") None)
                                             Sample.alice) Sample.world))
     = [("L1", Some (1 # 1), Some "rainy"); ("L2", Some (2 # 1), None)].
Proof. repeat split. Qed.

(** ** listHabitLogs *)

Lemma In_logs_of (w : World) (u : string) (r : EcoHabitLogs.row) :
  In r (logs_of w u) <-> In r (logs w) /\ EcoHabitLogs.userId r = u.
Proof.
  unfold logs_of. rewrite filter_In, String.eqb_eq. reflexivity.
Qed.

Lemma In_logs_of_habit (w : World) (u h : string) (r : EcoHabitLogs.row) :
  In r (logs_of_habit w u h)
  <-> In r (logs w) /\ EcoHabitLogs.userId r = u /\ EcoHabitLogs.habitId r = h.
Proof.
  unfold logs_of_habit. rewrite filter_In, andb_true_iff, !String.eqb_eq. reflexivity.
Qed.

Lemma listHabitLogs_owned (h : string) (context : ActionAPIContext)
      (u : User.t) (w : World) :
  h <> EmptyString ->
  identity context = Some u ->
  owns_habit w (User.id u) h = true ->
  outcome (server.listHabitLogs (Some {| LogFilter.habitId := Some h |}) context) w
  = Returned (listing (logs_of_habit w (User.id u) h)).
Proof.
  intros Hne Hu Hown.
  unfold outcome, server.listHabitLogs, defineAction, listHabitLogsSchema.
  cbn [nullish LogFilter.habitId]. rewrite (if_truthy_nonempty _ Hne).
  unfold bind. rewrite (requireUser_with_identity _ _ _ Hu).
  destruct (getHabitForUser_owned _ _ _ Hown) as (r & Hr & _). rewrite Hr.
  reflexivity.
Qed.

Lemma listHabitLogs_unfiltered (p : option LogFilter.t) (context : ActionAPIContext)
      (u : User.t) (w : World) :
  p = None \/ p = Some {| LogFilter.habitId := None |}
  \/ p = Some {| LogFilter.habitId := Some EmptyString |} ->
  identity context = Some u ->
  outcome (server.listHabitLogs p context) w = Returned (listing (logs_of w (User.id u))).
Proof.
  intros Hp Hu.
  unfold outcome, server.listHabitLogs, defineAction, listHabitLogsSchema.
  destruct Hp as [Hp|[Hp|Hp]]; subst p; cbn [nullish LogFilter.habitId if_truthy truthy];
    simpl; unfold bind; rewrite (requireUser_with_identity _ _ _ Hu); reflexivity.
Qed.

(** C8, as the code has it.  listHabitLogs by a signed-in caller filters on
    a [habitId] that is a non-empty string: the call is answered NOT_FOUND
    when that is not the id of a habit of the caller, and otherwise returns
    exactly the caller's logs of that habit, with their count.  When
    [habitId] is absent or is the empty string the call returns exactly all
    the logs of the caller. *)
Theorem C8_listHabitLogs_by_truthy_habitId :
  forall (context : ActionAPIContext) (u : User.t) (w : World),
    identity context = Some u ->
    (forall h,
        h <> EmptyString ->
        (owns_habit w (User.id u) h = false ->
         outcome (server.listHabitLogs (Some {| LogFilter.habitId := Some h |}) context) w
         = Threw (ActionError NOT_FOUND "Habit not found."))
        /\ (owns_habit w (User.id u) h = true ->
            outcome (server.listHabitLogs (Some {| LogFilter.habitId := Some h |}) context) w
            = Returned (listing (logs_of_habit w (User.id u) h))))
    /\ (forall p,
           p = None \/ p = Some {| LogFilter.habitId := None |}
           \/ p = Some {| LogFilter.habitId := Some EmptyString |} ->
           outcome (server.listHabitLogs p context) w
           = Returned (listing (logs_of w (User.id u)))).
Proof.
  intros context u w Hu. split.
  - intros h Hne. split; intro Hown.
    + unfold outcome. now rewrite (listHabitLogs_not_owned h context u w Hne Hu Hown).
    + exact (listHabitLogs_owned h context u w Hne Hu Hown).
  - intros p Hp. exact (listHabitLogs_unfiltered p context u w Hp Hu).
Qed.

Lemma C8_witness :
  identity Sample.bob = Some {| User.id := "bob" |}
  /\ outcome (server.listHabitLogs (Some {| LogFilter.habitId := Some "H1" |}) Sample.bob)
             Sample.world
     = Threw (ActionError NOT_FOUND "Habit not found.")
  /\ outcome (server.listHabitLogs (Some {| LogFilter.habitId := Some "H2" |}) Sample.bob)
             Sample.world
     = Returned (listing [Sample.refill])
  /\ outcome (server.listHabitLogs None Sample.bob) Sample.world
     = Returned (listing [Sample.refill]).
Proof.
  destruct (C8_listHabitLogs_by_truthy_habitId
              Sample.bob {| User.id := "bob" |} Sample.world eq_refl)
    as [Hfiltered Hall].
  assert (H1 : "H1" <> EmptyString) by discriminate.
  assert (H2 : "H2" <> EmptyString) by discriminate.
  split; [reflexivity|]. split; [|split].
  - exact (proj1 (Hfiltered "H1" H1) eq_refl).
  - exact (proj2 (Hfiltered "H2" H2) eq_refl).
  - exact (Hall None (or_introl eq_refl)).
Defined.

(** C8 as the specification words it fails: [habitId] is present, it is
    the empty string, which is the id of no habit of the caller, and the call
    is not answered NOT_FOUND: it returns all the logs of the caller. *)
Lemma C8_counterexample :
  owns_habit Sample.world "alice" EmptyString = false
  /\ outcome (server.listHabitLogs (Some {| LogFilter.habitId := Some EmptyString |}) Sample.alice)
             Sample.world
     = Returned (listing [Sample.ride]).
Proof. split; reflexivity. Qed.

(** ** What one request does to the two tables *)

Ltac unfold_actions :=
  cbv beta iota delta
    [serve after outcome fst snd
     server.createHabit server.updateHabit server.archiveHabit
     server.listMyHabits server.upsertHabitLog server.listHabitLogs
     defineAction bind requireUser getHabitForUser
     db.select_EcoHabits db.select_EcoHabitLogs
     db.insert_EcoHabits db.insert_EcoHabitLogs
     db.update_EcoHabits db.update_EcoHabitLogs
     randomUUID new_Date insert_row ret throw].

Ltac world_simpl :=
  cbn [habits logs journal uuid_source uuid_drawn clock clock_read
       issue with_habits with_logs fst snd EcoHabits.id EcoHabitLogs.id].

Ltac split_cases :=
  repeat (match goal with
          | |- context [match ?schema ?p with inl _ => _ | inr _ => _ end] =>
              destruct (schema p) eqn:?
          | |- context [match identity ?c with _ => _ end] =>
              destruct (identity c) eqn:?
          | |- context [hd_error ?l] => destruct (hd_error l) eqn:?
          | |- context [if_truthy ?v] => destruct (if_truthy v) eqn:?
          | |- context [existsb ?f ?l] => destruct (existsb f l) eqn:?
          | |- context [LogInput.logDate ?i] => destruct (LogInput.logDate i) eqn:?
          end; simpl).

(** The habits table after a request: as before, or with one more row whose
    id is new to the table, or with some rows rewritten by an update that
    sets neither [id] nor [userId] and does not set [isActive] to true. *)
Lemma habits_after_serve (rq : Request) (w : World) :
  habits (serve rq w) = habits w
  \/ (exists r,
         habits (serve rq w) = habits w ++ [r]
         /\ ~ In (EcoHabits.id r) (map EcoHabits.id (habits w))
         /\ EcoHabits.id r = uuid_source w (uuid_drawn w))
  \/ (exists s where_,
         habits (serve rq w) = update_rows (EcoHabits.apply s) where_ (habits w)
         /\ EcoHabits.set_id s = None
         /\ EcoHabits.set_userId s = None
         /\ EcoHabits.set_isActive s <> Some true).
Proof.
  destruct rq as [[p|p|p|p|p|p] context]; unfold_actions.
  - destruct (habitFieldsSchema p); [now left|].
    destruct (identity context); [|now left]. simpl.
    destruct (existsb _ (habits w)) eqn:E; simpl; [now left|].
    right; left. eexists. split; [reflexivity|]. split; [|reflexivity].
    simpl. intro Hin. apply in_map_iff in Hin. destruct Hin as (r & Hid & Hr).
    assert (existsb (fun r' => String.eqb (EcoHabits.id r') (uuid_source w (uuid_drawn w)))
                    (habits w) = true)
      by (apply existsb_exists; exists r; split; [assumption|now apply String.eqb_eq]).
    simpl in E. congruence.
  - destruct (updateHabitSchema p); [now left|].
    destruct (identity context); [|now left]. simpl.
    destruct (hd_error _); simpl; [|now left].
    right; right. do 2 eexists. split; [reflexivity|]. simpl. repeat split. discriminate.
  - destruct (archiveHabitSchema p); [now left|].
    destruct (identity context); [|now left]. simpl.
    destruct (hd_error _); simpl; [|now left].
    right; right. do 2 eexists. split; [reflexivity|]. simpl. repeat split. discriminate.
  - left. split_cases; reflexivity.
  - left. split_cases; reflexivity.
  - left. split_cases; reflexivity.
Qed.

(** The logs table after a request: as before, or with one more row,
    inserted by the create path of upsertHabitLog for its caller under an id
    new to the table, or with some rows rewritten by an update that sets
    none of [id], [userId] and [createdAt]. *)
Lemma logs_after_serve (rq : Request) (w : World) :
  logs (serve rq w) = logs w
  \/ (exists input u,
         creates rq w u (uuid_source w (uuid_drawn w))
         /\ logs (serve rq w) = logs w ++ [new_log input u w]
         /\ next_uuid_unused w)
  \/ (exists s where_,
         logs (serve rq w) = update_rows (EcoHabitLogs.apply s) where_ (logs w)
         /\ EcoHabitLogs.set_id s = None
         /\ EcoHabitLogs.set_userId s = None
         /\ EcoHabitLogs.set_createdAt s = None).
Proof.
  destruct rq as [[p|p|p|p|p|p] context].
  - left. unfold_actions. split_cases; reflexivity.
  - left. unfold_actions. split_cases; reflexivity.
  - left. unfold_actions. split_cases; reflexivity.
  - left. unfold_actions. split_cases; reflexivity.
  - unfold creates, next_uuid_unused, new_log. unfold_actions.
    destruct (upsertHabitLogSchema p) as [issues|input] eqn:Hp; [now left|].
    destruct (identity context) as [u|] eqn:Hu; [|now left].
    world_simpl.
    destruct (hd_error (select_rows _ (habits w))) eqn:Hh; [|now left].
    world_simpl.
    destruct (if_truthy (LogInput.id input)) as [l|] eqn:Hl.
    + world_simpl.
      destruct (hd_error (select_rows _ (logs w))) eqn:Hlog; [|now left].
      right; right. do 2 eexists. split; [reflexivity|]. simpl. auto.
    + destruct (LogInput.logDate input) as [d|] eqn:Hd;
        world_simpl;
        (destruct (existsb _ (logs w)) eqn:E; [now left|]);
        (assert (Hfresh : ~ In (uuid_source w (uuid_drawn w))
                            (map EcoHabitLogs.id (logs w)));
         [ intro Hin; apply in_map_iff in Hin; destruct Hin as (r' & Hid & Hr');
           assert (existsb (fun r'' => String.eqb (EcoHabitLogs.id r'')
                                                  (uuid_source w (uuid_drawn w)))
                           (logs w) = true)
             by (apply existsb_exists; exists r'; split;
                 [assumption|now apply String.eqb_eq]);
           congruence
         | ]);
        right; left; exists input, (User.id u);
        (split; [|split; [|exact Hfresh]]);
        [ exists p, context, u; rewrite Hp, Hu, Hh, Hl, Hd;
          world_simpl;
          rewrite E; auto
        | rewrite Hd; reflexivity
        | exists p, context, u; rewrite Hp, Hu, Hh, Hl, Hd;
          world_simpl;
          rewrite E; auto
        | rewrite Hd; reflexivity ].
  - left. unfold_actions. split_cases; reflexivity.
Qed.

Lemma sources_after_serve (rq : Request) (w : World) :
  uuid_source (serve rq w) = uuid_source w /\ clock (serve rq w) = clock w.
Proof.
  destruct rq as [[p|p|p|p|p|p] context]; unfold_actions; split_cases; auto.
Qed.

(** ** The store invariant holds in every reachable world *)

Lemma NoDup_snoc {A} (l : list A) (x : A) :
  NoDup l -> ~ In x l -> NoDup (l ++ [x]).
Proof.
  intros Hl Hx. induction Hl as [|y l Hy Hl IH]; simpl.
  - constructor; [intros []|constructor].
  - constructor.
    + rewrite in_app_iff. simpl. intros [H|[H|[]]]; [contradiction|].
      apply Hx. now left.
    + apply IH. intro H. apply Hx. now right.
Qed.

Lemma update_habits_keeps_ids (s : EcoHabits.values) (w : EcoHabits.row -> bool)
      (rows : list EcoHabits.row) :
  EcoHabits.set_id s = None ->
  map EcoHabits.id (update_rows (EcoHabits.apply s) w rows) = map EcoHabits.id rows.
Proof.
  intro Hs. unfold update_rows. rewrite map_map. apply map_ext.
  intro r. destruct (w r); [|reflexivity].
  unfold EcoHabits.apply. simpl. now rewrite Hs.
Qed.

Lemma serve_well_formed (rq : Request) (w : World) :
  uuids_nonempty w -> well_formed w -> well_formed (serve rq w).
Proof.
  intros Huuid [Hh Hl Hhe Hle].
  assert (Hhabits : NoDup (map EcoHabits.id (habits (serve rq w)))
                    /\ ~ In EmptyString (map EcoHabits.id (habits (serve rq w)))).
  { destruct (habits_after_serve rq w)
      as [E|[(r & E & Hnew & Hid)|(s & where_ & E & Hid & _)]]; rewrite E.
    - auto.
    - rewrite map_app. simpl. split; [now apply NoDup_snoc|].
      rewrite in_app_iff. simpl. intros [H|[H|[]]]; [contradiction|].
      apply (Huuid (uuid_drawn w)). congruence.
    - rewrite (update_habits_keeps_ids _ _ _ Hid). auto. }
  assert (Hlogs : NoDup (map EcoHabitLogs.id (logs (serve rq w)))
                  /\ ~ In EmptyString (map EcoHabitLogs.id (logs (serve rq w)))).
  { destruct (logs_after_serve rq w)
      as [E|[(input & u & _ & E & Hnew)|(s & where_ & E & Hid & _)]]; rewrite E.
    - auto.
    - rewrite map_app. simpl. split; [now apply NoDup_snoc|].
      rewrite in_app_iff. simpl. intros [H|[H|[]]]; [contradiction|].
      apply (Huuid (uuid_drawn w)). congruence.
    - rewrite (update_logs_keeps_ids _ _ _ Hid). auto. }
  constructor; tauto.
Qed.

Lemma run_well_formed (rs : list Request) (w : World) :
  uuids_nonempty w -> well_formed w -> well_formed (run rs w).
Proof.
  revert w. induction rs as [|rq rs IH]; intros w Huuid Hwf; simpl; [exact Hwf|].
  apply IH.
  - unfold uuids_nonempty. rewrite (proj1 (sources_after_serve rq w)). exact Huuid.
  - now apply serve_well_formed.
Qed.

(** From empty tables, whatever the requests, ids stay unique and non-empty. *)
Lemma reachable_well_formed (rs : list Request) (w : World) :
  habits w = [] -> logs w = [] -> uuids_nonempty w -> well_formed (run rs w).
Proof.
  intros Hh Hl Huuid. apply run_well_formed; [exact Huuid|].
  constructor; rewrite ?Hh, ?Hl; simpl; try constructor; tauto.
Qed.

(** ** Archived habits *)

Lemma archiveHabit_owned (h : string) (context : ActionAPIContext)
      (u : User.t) (w : World) :
  identity context = Some u ->
  owns_habit w (User.id u) h = true ->
  outcome (server.archiveHabit {| ArchivePayload.id := Some h |} context) w
  = Returned (ok {| habitId := h |})
  /\ logs (after (server.archiveHabit {| ArchivePayload.id := Some h |} context) w)
     = logs w
  /\ habits (after (server.archiveHabit {| ArchivePayload.id := Some h |} context) w)
     = update_rows
         (EcoHabits.apply
            {| EcoHabits.set_id := None;
               EcoHabits.set_userId := None;
               EcoHabits.set_name := None;
               EcoHabits.set_description := None;
               EcoHabits.set_category := None;
               EcoHabits.set_frequency := None;
               EcoHabits.set_targetPerPeriod := None;
               EcoHabits.set_impactPerUnit := None;
               EcoHabits.set_impactUnit := None;
               EcoHabits.set_isActive := Some false;
               EcoHabits.set_createdAt := None;
               EcoHabits.set_updatedAt := Some (clock w (clock_read w)) |})
         (is_habit (User.id u) h)
         (habits w).
Proof.
  intros Hu Hown. unfold outcome, after, server.archiveHabit, defineAction.
  cbn [archiveHabitSchema ArchivePayload.id ArchiveInput.id].
  unfold bind. rewrite (requireUser_with_identity _ _ _ Hu).
  destruct (getHabitForUser_owned _ _ _ Hown) as (r & Hr & _). rewrite Hr.
  simpl. auto.
Qed.

Lemma archiveHabit_archives (h : string) (context : ActionAPIContext)
      (u : User.t) (w : World) (result : Envelope HabitId) :
  identity context = Some u ->
  outcome (server.archiveHabit {| ArchivePayload.id := Some h |} context) w
  = Returned result ->
  archived (after (server.archiveHabit {| ArchivePayload.id := Some h |} context) w)
           (User.id u) h
  /\ logs (after (server.archiveHabit {| ArchivePayload.id := Some h |} context) w)
     = logs w.
Proof.
  intros Hu Hout.
  destruct (owns_habit w (User.id u) h) eqn:Hown.
  2:{ unfold outcome in Hout.
      rewrite (archiveHabit_not_owned {| ArchivePayload.id := Some h |}
                 {| ArchiveInput.id := h |} context u w eq_refl Hu Hown) in Hout.
      discriminate. }
  destruct (archiveHabit_owned h context u w Hu Hown) as (_ & Hlogs & Hhabits).
  split; [|exact Hlogs]. unfold archived. rewrite Hhabits. unfold update_rows.
  apply owns_habit_spec in Hown. destruct Hown as (r & Hin & Hid & Huid). split.
  - eexists. split; [apply in_map; exact Hin|].
    unfold is_habit. rewrite Hid, Huid, !String.eqb_refl. simpl. auto.
  - intros r' Hr' Hid' Huid'. apply in_map_iff in Hr'.
    destruct Hr' as (r0 & Hr0 & _).
    destruct (is_habit (User.id u) h r0) eqn:E; subst r'; [reflexivity|].
    unfold is_habit in E. rewrite Hid', Huid', !String.eqb_refl in E. discriminate.
Qed.

Lemma archived_serve (rq : Request) (w : World) (u h : string) :
  archived w u h -> archived (serve rq w) u h.
Proof.
  intros [(r & Hin & Hid & Huid) Hall]. unfold archived.
  destruct (habits_after_serve rq w)
    as [E|[(r' & E & Hnew & _)|(s & where_ & E & Hsid & Hsuid & Hact)]]; rewrite E.
  - eauto.
  - split.
    + exists r. rewrite in_app_iff. auto.
    + intros x Hx Hxid Hxuid. rewrite in_app_iff in Hx. simpl in Hx.
      destruct Hx as [Hx|[Hx|[]]]; [now apply Hall|].
      subst x. exfalso. apply Hnew. rewrite Hxid, <- Hid. now apply in_map.
  - unfold update_rows. split.
    + eexists. split; [apply in_map; exact Hin|].
      destruct (where_ r); [|auto].
      unfold EcoHabits.apply. simpl. rewrite Hsid, Hsuid. simpl. auto.
    + intros x Hx Hxid Hxuid. apply in_map_iff in Hx. destruct Hx as (r0 & Hr0 & Hin0).
      destruct (where_ r0); subst x; [|now apply Hall].
      unfold EcoHabits.apply in *. simpl in *. rewrite Hsid in Hxid. rewrite Hsuid in Hxuid.
      simpl in *. rewrite (Hall r0 Hin0 Hxid Hxuid).
      destruct (EcoHabits.set_isActive s) as [[|]|]; simpl; congruence.
Qed.

Lemma archived_run (rs : list Request) (w : World) (u h : string) :
  archived w u h -> archived (run rs w) u h.
Proof.
  revert w. induction rs as [|rq rs IH]; intros w H; simpl; [exact H|].
  apply IH. now apply archived_serve.
Qed.

Lemma listMyHabits_signed_in (p : ListHabitsPayload.t) (context : ActionAPIContext)
      (u : User.t) (w : World) :
  identity context = Some u ->
  outcome (server.listMyHabits p context) w
  = Returned
      (listing
         (filter (fun r =>
                    if nullish (ListHabitsPayload.includeInactive p) false
                    then String.eqb (EcoHabits.userId r) (User.id u)
                    else String.eqb (EcoHabits.userId r) (User.id u)
                         && Bool.eqb (EcoHabits.isActive r) true)
                 (habits w))).
Proof.
  intro Hu. unfold outcome, server.listMyHabits, defineAction, listMyHabitsSchema.
  unfold bind. rewrite (requireUser_with_identity _ _ _ Hu).
  cbn [ListHabitsInput.includeInactive].
  destruct (nullish (ListHabitsPayload.includeInactive p) false); reflexivity.
Qed.

(** C9.  After archiveHabit has succeeded on a habit for a signed-in
    caller, the logs table is as it was; and from then on, whatever requests
    are served in between, listMyHabits for that caller with
    [includeInactive] false (or left out) returns no habit of that id, and
    with [includeInactive] true returns that habit, with [isActive] false. *)
Theorem C9_archived_habit_in_listings :
  forall (h : string) (context : ActionAPIContext) (u : User.t) (w : World)
         (result : Envelope HabitId) (later : list Request),
    identity context = Some u ->
    outcome (server.archiveHabit {| ArchivePayload.id := Some h |} context) w
    = Returned result ->
    logs (after (server.archiveHabit {| ArchivePayload.id := Some h |} context) w)
    = logs w
    /\ (forall p,
           ListHabitsPayload.includeInactive p <> Some true ->
           exists items,
             outcome (server.listMyHabits p context)
                     (run later
                          (after (server.archiveHabit
                                    {| ArchivePayload.id := Some h |} context) w))
             = Returned (listing items)
             /\ ~ In h (map EcoHabits.id items))
    /\ (exists items,
           outcome (server.listMyHabits
                      {| ListHabitsPayload.includeInactive := Some true |} context)
                   (run later
                        (after (server.archiveHabit
                                  {| ArchivePayload.id := Some h |} context) w))
           = Returned (listing items)
           /\ (exists r, In r items /\ EcoHabits.id r = h /\ EcoHabits.isActive r = false)
           /\ (forall r, In r items -> EcoHabits.id r = h -> EcoHabits.isActive r = false)).
Proof.
  intros h context u w result later Hu Hout.
  destruct (archiveHabit_archives h context u w result Hu Hout) as [Harch Hlogs].
  split; [exact Hlogs|].
  apply (archived_run later) in Harch.
  set (w2 := run later _) in *.
  destruct Harch as [(r & Hin & Hid & Huid) Hall].
  split.
  - intros p Hp. eexists. split; [apply (listMyHabits_signed_in p context u w2 Hu)|].
    assert (Hflag : nullish (ListHabitsPayload.includeInactive p) false = false).
    { destruct (ListHabitsPayload.includeInactive p) as [[|]|]; simpl; congruence. }
    rewrite Hflag. intro Hh. apply in_map_iff in Hh. destruct Hh as (x & Hxid & Hx).
    apply filter_In in Hx. destruct Hx as [Hx Hcond].
    apply andb_true_iff in Hcond. destruct Hcond as [Hxu Hxa].
    apply String.eqb_eq in Hxu. apply Bool.eqb_prop in Hxa.
    rewrite (Hall x Hx Hxid Hxu) in Hxa. discriminate.
  - eexists. split; [apply (listMyHabits_signed_in _ context u w2 Hu)|].
    cbn [nullish ListHabitsPayload.includeInactive]. split.
    + exists r. split; [|split; [exact Hid|now apply Hall]].
      apply filter_In. split; [exact Hin|]. now apply String.eqb_eq.
    + intros x Hx Hxid. apply filter_In in Hx. destruct Hx as [Hx Hxu].
      apply String.eqb_eq in Hxu. now apply Hall.
Qed.

Lemma C9_witness :
  identity Sample.alice = Some {| User.id := "alice" |}
  /\ outcome (server.archiveHabit {| ArchivePayload.id := Some "H1" |} Sample.alice)
             Sample.world
     = Returned (ok {| habitId := "H1" |})
  /\ (exists items,
         outcome (server.listMyHabits
                    {| ListHabitsPayload.includeInactive := Some false |} Sample.alice)
                 (run [(UpdateHabit (Sample.habit_payload (Some "H1") (Some "Cycle") None),
                        Sample.alice)]
                      (after (server.archiveHabit
                                {| ArchivePayload.id := Some "H1" |} Sample.alice)
                             Sample.world))
         = Returned (listing items)
         /\ ~ In "H1" (map EcoHabits.id items)).
Proof.
  split; [reflexivity|]. split; [reflexivity|].
  destruct (C9_archived_habit_in_listings
              "H1" Sample.alice {| User.id := "alice" |} Sample.world
              (ok {| habitId := "H1" |})
              [(UpdateHabit (Sample.habit_payload (Some "H1") (Some "Cycle") None),
                Sample.alice)]
              eq_refl eq_refl) as (_ & Hdefault & _).
  apply (Hdefault {| ListHabitsPayload.includeInactive := Some false |}).
  discriminate.
Defined.

(** ** The owner of a log *)

Lemma same_log_identity_refl (r : EcoHabitLogs.row) : same_log_identity r r.
Proof. unfold same_log_identity. auto. Qed.

Lemma same_log_identity_trans (a b c : EcoHabitLogs.row) :
  same_log_identity a b -> same_log_identity b c -> same_log_identity a c.
Proof.
  unfold same_log_identity. intros (H1 & H2 & H3) (H4 & H5 & H6).
  repeat split; congruence.
Qed.

Lemma Forall2_In_right {A B} (P : A -> B -> Prop) (l : list A) (l' : list B) (y : B) :
  Forall2 P l l' -> In y l' -> exists x, In x l /\ P x y.
Proof.
  induction 1 as [|a b l l' Hab HF IH]; simpl; [intros []|].
  intros [Hy|Hy].
  - subst. exists a. auto.
  - destruct (IH Hy) as (x & Hx & Hp). exists x. auto.
Qed.

Lemma update_logs_keeps_identity (s : EcoHabitLogs.values)
      (where_ : EcoHabitLogs.row -> bool) (rows : list EcoHabitLogs.row) :
  EcoHabitLogs.set_id s = None ->
  EcoHabitLogs.set_userId s = None ->
  EcoHabitLogs.set_createdAt s = None ->
  Forall2 same_log_identity rows (update_rows (EcoHabitLogs.apply s) where_ rows).
Proof.
  intros H1 H2 H3. apply Forall2_update_rows. intros r _.
  destruct (where_ r); [|apply same_log_identity_refl].
  unfold same_log_identity, EcoHabitLogs.apply. simpl. rewrite H1, H2, H3. auto.
Qed.

(** A row of the logs table after a request either was in the table before,
    with the same id, user and creation date, or was created by the request
    for its caller. *)
Lemma log_origin_serve (rq : Request) (w : World) (r : EcoHabitLogs.row) :
  In r (logs (serve rq w)) ->
  (exists r0, In r0 (logs w) /\ same_log_identity r0 r)
  \/ creates rq w (EcoHabitLogs.userId r) (EcoHabitLogs.id r).
Proof.
  intro Hr.
  destruct (logs_after_serve rq w)
    as [E|[(input & u & Hc & E & _)|(s & where_ & E & H1 & H2 & H3)]];
    rewrite E in Hr.
  - left. exists r. split; [exact Hr|apply same_log_identity_refl].
  - rewrite in_app_iff in Hr. simpl in Hr. destruct Hr as [Hr|[Hr|[]]].
    + left. exists r. split; [exact Hr|apply same_log_identity_refl].
    + right. subst r. exact Hc.
  - left.
    pose proof (update_logs_keeps_identity s where_ (logs w) H1 H2 H3) as HF.
    destruct (Forall2_In_right _ _ _ r HF Hr) as (r0 & Hr0 & Hsame).
    exists r0. auto.
Qed.

(** Every call of upsertHabitLog ends in one of three ways. *)
Lemma upsertHabitLog_cases (p : LogPayload.t) (context : ActionAPIContext) (w : World) :
  (exists e,
      outcome (server.upsertHabitLog p context) w = Threw e
      /\ logs (after (server.upsertHabitLog p context) w) = logs w)
  \/ (exists l s where_,
         outcome (server.upsertHabitLog p context) w
         = Returned (ok {| logId := l; mode := updated |})
         /\ logs (after (server.upsertHabitLog p context) w)
            = update_rows (EcoHabitLogs.apply s) where_ (logs w)
         /\ EcoHabitLogs.set_id s = None
         /\ EcoHabitLogs.set_userId s = None
         /\ EcoHabitLogs.set_createdAt s = None)
  \/ (exists input u,
         outcome (server.upsertHabitLog p context) w
         = Returned (ok {| logId := uuid_source w (uuid_drawn w); mode := created |})
         /\ identity context = Some u
         /\ logs (after (server.upsertHabitLog p context) w)
            = logs w ++ [new_log input (User.id u) w]).
Proof.
  unfold new_log. unfold_actions.
  destruct (upsertHabitLogSchema p) as [issues|input] eqn:Hp; [left; eauto|].
  destruct (identity context) as [u|] eqn:Hu; [|left; eauto].
  world_simpl.
  destruct (hd_error (select_rows _ (habits w))) eqn:Hh; [|left; eauto].
  world_simpl.
  destruct (if_truthy (LogInput.id input)) as [l|] eqn:Hl.
  - world_simpl.
    destruct (hd_error (select_rows _ (logs w))) eqn:Hlog; [|left; eauto].
    right; left. do 3 eexists. split; [reflexivity|]. split; [reflexivity|].
    simpl. auto.
  - destruct (LogInput.logDate input) as [d|] eqn:Hd; world_simpl;
      (destruct (existsb _ (logs w)) eqn:E; [left; eauto|]);
      right; right; exists input, u; rewrite Hd; auto.
Qed.

Lemma log_origin_run (rs : list Request) (w : World) (r : EcoHabitLogs.row) :
  In r (logs (run rs w)) ->
  (exists r0, In r0 (logs w) /\ same_log_identity r0 r)
  \/ (exists before rq later,
         rs = before ++ rq :: later
         /\ creates rq (run before w) (EcoHabitLogs.userId r) (EcoHabitLogs.id r)).
Proof.
  revert w. induction rs as [|rq rs IH]; intros w Hr; simpl in Hr.
  - left. exists r. split; [exact Hr|apply same_log_identity_refl].
  - destruct (IH _ Hr) as [(r1 & Hr1 & Hsame)|(before & rq' & later & Hrs & Hc)].
    + destruct (log_origin_serve rq w r1 Hr1) as [(r0 & Hr0 & Hsame0)|Hc].
      * left. exists r0. split; [exact Hr0|].
        exact (same_log_identity_trans r0 r1 r Hsame0 Hsame).
      * right. exists [], rq, rs. split; [reflexivity|].
        destruct Hsame as (Hid & Huid & _). rewrite Hid, Huid. exact Hc.
    + right. exists (rq :: before), rq', later. split; [|exact Hc].
      simpl. now rewrite Hrs.
Qed.

(** C10.  A call of upsertHabitLog that returns mode "updated" leaves the
    [id], the [userId] and the [createdAt] of every stored log as they
    were; a call that returns mode "created" adds one log, whose [userId] is
    the identity of the caller.  Hence, starting from an empty logs table,
    after any sequence of requests every stored log was created by a call
    of upsertHabitLog whose caller's identity is the log's [userId],
    whatever was done to the log afterwards. *)
Theorem C10_log_owner_is_its_creator :
  (forall p context w l,
      outcome (server.upsertHabitLog p context) w
      = Returned (ok {| logId := l; mode := updated |}) ->
      Forall2 same_log_identity
              (logs w) (logs (after (server.upsertHabitLog p context) w)))
  /\ (forall p context w l,
         outcome (server.upsertHabitLog p context) w
         = Returned (ok {| logId := l; mode := created |}) ->
         exists u r,
           identity context = Some u
           /\ logs (after (server.upsertHabitLog p context) w) = logs w ++ [r]
           /\ EcoHabitLogs.id r = l
           /\ EcoHabitLogs.userId r = User.id u)
  /\ (forall rs w r,
         logs w = [] ->
         In r (logs (run rs w)) ->
         exists before rq later,
           rs = before ++ rq :: later
           /\ creates rq (run before w) (EcoHabitLogs.userId r) (EcoHabitLogs.id r)).
Proof.
  split; [|split].
  - intros p context w l Hout.
    destruct (upsertHabitLog_cases p context w)
      as [(e & He & _)|[(l' & s & where_ & _ & E & H1 & H2 & H3)|(input & u & Hc & _)]].
    + rewrite He in Hout. discriminate.
    + rewrite E. now apply update_logs_keeps_identity.
    + rewrite Hc in Hout. discriminate.
  - intros p context w l Hout.
    destruct (upsertHabitLog_cases p context w)
      as [(e & He & _)|[(l' & s & where_ & Hu & _)|(input & u & Hc & Hu & E)]].
    + rewrite He in Hout. discriminate.
    + rewrite Hu in Hout. discriminate.
    + rewrite Hc in Hout. inversion Hout; subst l.
      exists u, (new_log input (User.id u) w). auto.
  - intros rs w r Hempty Hr.
    destruct (log_origin_run rs w r Hr) as [(r0 & Hr0 & _)|H]; [|exact H].
    rewrite Hempty in Hr0. destruct Hr0.
Qed.

(** The session of the specification's example ends with one log, of
    quantity 2, which listHabitLogs returns. *)
Example session_ends_with_one_log :
  logs (run Sample.session Sample.empty_world) = [Sample.session_log]
  /\ outcome (server.listHabitLogs (Some {| LogFilter.habitId := Some "U0" |}) Sample.alice)
             (run Sample.session Sample.empty_world)
     = Returned (listing [Sample.session_log]).
Proof. split; reflexivity. Qed.

Lemma C10_witness :
  logs Sample.empty_world = []
  /\ In Sample.session_log (logs (run Sample.session Sample.empty_world))
  /\ exists before rq later,
       Sample.session = before ++ rq :: later
       /\ creates rq (run before Sample.empty_world) "alice" "U00".
Proof.
  assert (Hin : In Sample.session_log (logs (run Sample.session Sample.empty_world)))
    by (left; reflexivity).
  split; [reflexivity|]. split; [exact Hin|].
  exact (proj2 (proj2 C10_log_owner_is_its_creator)
               Sample.session Sample.empty_world Sample.session_log eq_refl Hin).
Defined.

(* ------------------------------------------------------------------ *)
(** * Further properties of the action layer *)

(** ** Each action keeps to its own table *)

(** The four habit actions never write to the logs table, and the two log
    actions never write to the habits table, whatever the payload, the
    caller and the outcome. *)
Theorem X_actions_keep_to_their_table :
  forall (context : ActionAPIContext) (w : World),
    (forall p, logs (after (server.createHabit p context) w) = logs w)
    /\ (forall p, logs (after (server.updateHabit p context) w) = logs w)
    /\ (forall p, logs (after (server.archiveHabit p context) w) = logs w)
    /\ (forall p, logs (after (server.listMyHabits p context) w) = logs w)
    /\ (forall p, habits (after (server.upsertHabitLog p context) w) = habits w)
    /\ (forall p, habits (after (server.listHabitLogs p context) w) = habits w).
Proof.
  intros context w.
  repeat split; intro p; unfold_actions; split_cases; reflexivity.
Qed.

Lemma habit_requests_keep_logs (rq : Request) (w : World) :
  (forall p context, rq <> (UpsertHabitLog p, context)) ->
  logs (serve rq w) = logs w.
Proof.
  intro Hrq. destruct rq as [[p|p|p|p|p|p] context];
    try (unfold_actions; split_cases; reflexivity).
  exfalso. apply (Hrq p context). reflexivity.
Qed.

Lemma log_requests_keep_habits (p : LogPayload.t) (context : ActionAPIContext)
      (w : World) :
  habits (serve (UpsertHabitLog p, context) w) = habits w.
Proof. unfold_actions; split_cases; reflexivity. Qed.

(** ** A call that fails has changed nothing *)

(** Whatever the request, if it is answered with an error then both tables
    are as they were before the call. *)
Theorem X_failed_request_changes_nothing :
  forall (rq : Request) (w : World),
    threw rq w ->
    habits (serve rq w) = habits w /\ logs (serve rq w) = logs w.
Proof.
  intros [[p|p|p|p|p|p] context] w; unfold threw; unfold_actions;
    split_cases; intros [e He]; try discriminate He; auto.
Qed.

Lemma X_failed_request_changes_nothing_witness :
  threw (CreateHabit (Sample.habit_payload None (Some EmptyString) None), Sample.alice)
        Sample.world
  /\ habits (serve (CreateHabit (Sample.habit_payload None (Some EmptyString) None),
                    Sample.alice) Sample.world)
     = habits Sample.world.
Proof.
  assert (H : threw (CreateHabit (Sample.habit_payload None (Some EmptyString) None),
                     Sample.alice) Sample.world)
    by (eexists; reflexivity).
  split; [exact H|].
  exact (proj1 (X_failed_request_changes_nothing _ Sample.world H)).
Defined.

(** ** What the schemas accept *)



Lemma nonnegative_spec (q : number) : nonnegative q = true <-> (0 <= q)%Q.
Proof. unfold nonnegative. apply Qle_bool_iff. Qed.













(** ** createHabit and the listings *)

Lemma not_in_habit_ids_existsb (rows : list EcoHabits.row) (i : string) :
  ~ In i (map EcoHabits.id rows) ->
  existsb (fun r' => String.eqb (EcoHabits.id r') i) rows = false.
Proof.
  intro H. destruct (existsb _ rows) eqn:E; [exfalso|reflexivity].
  apply existsb_exists in E. destruct E as (r & Hin & Hr).
  apply String.eqb_eq in Hr. apply H. rewrite <- Hr. now apply in_map.
Qed.

Lemma createHabit_inserts (p : HabitPayload.t) (input : HabitFields.t)
      (context : ActionAPIContext) (u : User.t) (w : World) :
  habitFieldsSchema p = inr input ->
  identity context = Some u ->
  ~ In (uuid_source w (uuid_drawn w)) (map EcoHabits.id (habits w)) ->
  outcome (server.createHabit p context) w
  = Returned (ok {| habitId := uuid_source w (uuid_drawn w) |})
  /\ habits (after (server.createHabit p context) w)
     = habits w ++ [new_habit input (User.id u) w]
  /\ journal (after (server.createHabit p context) w)
     = journal w ++ [INSERT T_EcoHabits].
Proof.
  intros Hp Hu Hfresh. apply not_in_habit_ids_existsb in Hfresh.
  unfold new_habit. unfold_actions. rewrite Hp, Hu. world_simpl.
  rewrite Hfresh. auto.
Qed.

Lemma In_listMyHabits (p : ListHabitsPayload.t) (u : string) (w : World)
      (r : EcoHabits.row) :
  In r (filter (fun r =>
                  if nullish (ListHabitsPayload.includeInactive p) false
                  then String.eqb (EcoHabits.userId r) u
                  else String.eqb (EcoHabits.userId r) u
                       && Bool.eqb (EcoHabits.isActive r) true)
               (habits w))
  <-> In r (habits w)
      /\ EcoHabits.userId r = u
      /\ (ListHabitsPayload.includeInactive p = Some true \/ EcoHabits.isActive r = true).
Proof.
  rewrite filter_In.
  destruct (ListHabitsPayload.includeInactive p) as [[|]|]; simpl;
    rewrite ?andb_true_iff, ?String.eqb_eq;
    destruct (EcoHabits.isActive r); simpl; intuition congruence.
Qed.

(** listMyHabits for a signed-in caller issues one SELECT on the habits and
    writes nothing; it returns exactly the habits of the caller, the archived
    ones only when [includeInactive] is true, and never a habit of another
    user. *)
Theorem X_listMyHabits_returns_the_callers_habits :
  forall (p : ListHabitsPayload.t) (context : ActionAPIContext) (u : User.t) (w : World),
    identity context = Some u ->
    exists rows,
      server.listMyHabits p context w
      = (Returned (listing rows), issue (SELECT T_EcoHabits) w)
      /\ (forall r,
             In r rows
             <-> In r (habits w)
                 /\ EcoHabits.userId r = User.id u
                 /\ (ListHabitsPayload.includeInactive p = Some true
                     \/ EcoHabits.isActive r = true)).
Proof.
  intros p context u w Hu. eexists. split.
  - unfold server.listMyHabits, defineAction, listMyHabitsSchema.
    unfold bind. rewrite (requireUser_with_identity _ _ _ Hu).
    cbn [ListHabitsInput.includeInactive].
    instantiate (1 := filter (fun r =>
                  if nullish (ListHabitsPayload.includeInactive p) false
                  then String.eqb (EcoHabits.userId r) (User.id u)
                  else String.eqb (EcoHabits.userId r) (User.id u)
                       && Bool.eqb (EcoHabits.isActive r) true)
               (habits w)).
    destruct (nullish (ListHabitsPayload.includeInactive p) false); reflexivity.
  - intro r. apply In_listMyHabits.
Qed.

Lemma X_listMyHabits_returns_the_callers_habits_witness :
  identity Sample.bob = Some {| User.id := "bob" |}
  /\ exists rows,
       server.listMyHabits {| ListHabitsPayload.includeInactive := None |}
                           Sample.bob Sample.world
       = (Returned (listing rows), issue (SELECT T_EcoHabits) Sample.world)
       /\ (forall r,
              In r rows
              <-> In r (habits Sample.world)
                  /\ EcoHabits.userId r = "bob"
                  /\ (@None bool = Some true \/ EcoHabits.isActive r = true)).
Proof.
  split; [reflexivity|].
  exact (X_listMyHabits_returns_the_callers_habits
           {| ListHabitsPayload.includeInactive := None |}
           Sample.bob {| User.id := "bob" |} Sample.world eq_refl).
Defined.

(** createHabit with an accepted payload, a signed-in caller and an id from
    crypto.randomUUID() that no habit has yet returns that id and adds one
    row: the caller's, active, with the submitted values and with
    [createdAt] and [updatedAt] equal.  The rows already stored and the logs
    are as before, and listMyHabits then returns the new row, with either
    value of [includeInactive]. *)
Theorem X_createHabit_then_listed :
  forall (p : HabitPayload.t) (input : HabitFields.t) (context : ActionAPIContext)
         (u : User.t) (w : World),
    habitFieldsSchema p = inr input ->
    identity context = Some u ->
    ~ In (uuid_source w (uuid_drawn w)) (map EcoHabits.id (habits w)) ->
    outcome (server.createHabit p context) w
    = Returned (ok {| habitId := uuid_source w (uuid_drawn w) |})
    /\ habits (after (server.createHabit p context) w)
       = habits w ++ [new_habit input (User.id u) w]
    /\ logs (after (server.createHabit p context) w) = logs w
    /\ (forall flag,
           exists rows,
             outcome (server.listMyHabits flag context)
                     (after (server.createHabit p context) w)
             = Returned (listing rows)
             /\ In (new_habit input (User.id u) w) rows).
Proof.
  intros p input context u w Hp Hu Hfresh.
  destruct (createHabit_inserts p input context u w Hp Hu Hfresh) as (Hout & Hrows & _).
  split; [exact Hout|]. split; [exact Hrows|]. split.
  - unfold_actions; split_cases; reflexivity.
  - intro flag. eexists. split.
    + apply (listMyHabits_signed_in flag context u _ Hu).
    + apply In_listMyHabits. rewrite Hrows, in_app_iff. simpl. auto.
Qed.

Lemma X_createHabit_then_listed_witness :
  identity Sample.alice = Some {| User.id := "alice" |}
  /\ ~ In (uuid_source Sample.world (uuid_drawn Sample.world))
          (map EcoHabits.id (habits Sample.world))
  /\ outcome (server.createHabit (Sample.habit_payload None (Some "Walk") None)
                                 Sample.alice) Sample.world
     = Returned (ok {| habitId := "U0" |}).
Proof.
  assert (Hfresh : ~ In (uuid_source Sample.world (uuid_drawn Sample.world))
                        (map EcoHabits.id (habits Sample.world)))
    by (simpl; intuition discriminate).
  split; [reflexivity|]. split; [exact Hfresh|].
  exact (proj1 (X_createHabit_then_listed
                  (Sample.habit_payload None (Some "Walk") None) _
                  Sample.alice {| User.id := "alice" |} Sample.world
                  eq_refl eq_refl Hfresh)).
Defined.

(** ** archiveHabit *)

(** archiveHabit on a habit of the caller, archived already or not, returns
    the habit's id and rewrites that habit's row only: [isActive] becomes
    false, [updatedAt] the time of the call, and every other column stays.
    Every other row, and the logs table, are as before. *)
Theorem X_archiveHabit_changes_isActive_only :
  forall (h : string) (context : ActionAPIContext) (u : User.t) (w : World),
    identity context = Some u ->
    owns_habit w (User.id u) h = true ->
    outcome (server.archiveHabit {| ArchivePayload.id := Some h |} context) w
    = Returned (ok {| habitId := h |})
    /\ logs (after (server.archiveHabit {| ArchivePayload.id := Some h |} context) w)
       = logs w
    /\ Forall2
         (fun old new =>
            new = if is_habit (User.id u) h old
                  then archived_row (clock w (clock_read w)) old
                  else old)
         (habits w)
         (habits (after (server.archiveHabit {| ArchivePayload.id := Some h |} context) w)).
Proof.
  intros h context u w Hu Hown.
  destruct (archiveHabit_owned h context u w Hu Hown) as (Hout & Hlogs & Hrows).
  split; [exact Hout|]. split; [exact Hlogs|].
  rewrite Hrows. apply Forall2_update_rows. intros r _.
  destruct (is_habit (User.id u) h r); reflexivity.
Qed.

Lemma X_archiveHabit_changes_isActive_only_witness :
  identity Sample.bob = Some {| User.id := "bob" |}
  /\ owns_habit Sample.world "bob" "H2" = true
  /\ habits (after (server.archiveHabit {| ArchivePayload.id := Some "H2" |} Sample.bob)
                   Sample.world)
     = [Sample.bike; archived_row 2000%Z Sample.bottle].
Proof.
  split; [reflexivity|]. split; [reflexivity|].
  destruct (X_archiveHabit_changes_isActive_only
              "H2" Sample.bob {| User.id := "bob" |} Sample.world eq_refl eq_refl)
    as (_ & _ & HF).
  inversion HF as [|a b la lb Hab HF']; subst.
  inversion HF' as [|a' b' la' lb' Hab' HF'']; subst.
  inversion HF''; subst. reflexivity.
Defined.

(** ** What one request does, with its caller *)

Lemma hd_error_filter_existsb {A} (f : A -> bool) (l : list A) (r : A) :
  hd_error (filter f l) = Some r -> existsb f l = true.
Proof.
  induction l as [|a l IH]; simpl; [discriminate|].
  destruct (f a); simpl; auto.
Qed.

(** The habits table after a request: as before, or with one more row, of the
    caller, under an id new to the table, or with the rows of one habit of the
    caller rewritten by an update that sets none of [id], [userId] and
    [createdAt] and does not set [isActive] to true. *)
Lemma habits_step (rq : Request) (w : World) :
  habits (serve rq w) = habits w
  \/ (exists r,
         habits (serve rq w) = habits w ++ [r]
         /\ ~ In (EcoHabits.id r) (map EcoHabits.id (habits w))
         /\ caller rq = Some (EcoHabits.userId r))
  \/ (exists s u h,
         caller rq = Some u
         /\ habits (serve rq w) = update_rows (EcoHabits.apply s) (is_habit u h) (habits w)
         /\ EcoHabits.set_id s = None
         /\ EcoHabits.set_userId s = None
         /\ EcoHabits.set_createdAt s = None
         /\ EcoHabits.set_isActive s <> Some true).
Proof.
  destruct rq as [[p|p|p|p|p|p] context]; unfold caller; cbn [snd]; unfold_actions.
  - destruct (habitFieldsSchema p); [now left|].
    destruct (identity context) as [u|]; [|now left]. world_simpl.
    destruct (existsb _ (habits w)) eqn:E; world_simpl; [now left|].
    right; left. eexists. split; [reflexivity|]. split; [|reflexivity].
    cbn [EcoHabits.id]. intro Hin.
    apply in_map_iff in Hin. destruct Hin as (r & Hid & Hr).
    assert (existsb (fun r' => String.eqb (EcoHabits.id r') (uuid_source w (uuid_drawn w)))
                    (habits w) = true)
      by (apply existsb_exists; exists r; split; [assumption|now apply String.eqb_eq]).
    congruence.
  - destruct (updateHabitSchema p); [now left|].
    destruct (identity context) as [u|]; [|now left]. world_simpl.
    destruct (hd_error _); world_simpl; [|now left].
    right; right. do 3 eexists. split; [reflexivity|]. split; [reflexivity|].
    simpl. repeat split. discriminate.
  - destruct (archiveHabitSchema p); [now left|].
    destruct (identity context) as [u|]; [|now left]. world_simpl.
    destruct (hd_error _); world_simpl; [|now left].
    right; right. do 3 eexists. split; [reflexivity|]. split; [reflexivity|].
    simpl. repeat split. discriminate.
  - left. split_cases; reflexivity.
  - left. split_cases; reflexivity.
  - left. split_cases; reflexivity.
Qed.

Lemma forall_upsert_or_not (rq : Request) :
  (exists p context, rq = (UpsertHabitLog p, context))
  \/ (forall p context, rq <> (UpsertHabitLog p, context)).
Proof.
  destruct rq as [[p|p|p|p|p|p] context]; try (right; intros ? ?; discriminate).
  left. eauto.
Qed.

(** The logs table after a request: as before, or with one more row, of the
    caller and for a habit of the caller, under an id new to the table, or
    with the rows of one log of the caller rewritten by an update that sets
    none of [id], [userId] and [createdAt] and sets [habitId] to a habit of
    the caller. *)
Lemma logs_step (rq : Request) (w : World) :
  logs (serve rq w) = logs w
  \/ (exists input u,
         caller rq = Some u
         /\ logs (serve rq w) = logs w ++ [new_log input u w]
         /\ next_uuid_unused w
         /\ owns_habit w u (LogInput.habitId input) = true)
  \/ (exists s u l h,
         caller rq = Some u
         /\ logs (serve rq w) = update_rows (EcoHabitLogs.apply s) (is_log u l) (logs w)
         /\ EcoHabitLogs.set_id s = None
         /\ EcoHabitLogs.set_userId s = None
         /\ EcoHabitLogs.set_createdAt s = None
         /\ EcoHabitLogs.set_habitId s = Some h
         /\ owns_habit w u h = true).
Proof.
  destruct (forall_upsert_or_not rq) as [(p & context & Hrq)|Hrq].
  2:{ left. now apply habit_requests_keep_logs. }
  subst rq. unfold caller, next_uuid_unused, new_log, owns_habit; cbn [snd]. unfold_actions.
  destruct (upsertHabitLogSchema p) as [issues|input] eqn:Hp; [now left|].
  destruct (identity context) as [u|] eqn:Hu; [|now left].
  world_simpl.
  destruct (hd_error (select_rows _ (habits w))) eqn:Hh; [|now left].
  apply hd_error_filter_existsb in Hh.
  world_simpl.
  destruct (if_truthy (LogInput.id input)) as [l|] eqn:Hl.
  - world_simpl.
    destruct (hd_error (select_rows _ (logs w))) eqn:Hlog; [|now left].
    right; right. do 4 eexists. split; [reflexivity|]. split; [reflexivity|].
    simpl. repeat split. exact Hh.
  - destruct (LogInput.logDate input) as [d|] eqn:Hd; world_simpl;
      (destruct (existsb _ (logs w)) eqn:E; [now left|]);
      right; left; exists input, (User.id u);
      (split; [reflexivity|]); rewrite Hd;
      (split; [reflexivity|]); (split; [|exact Hh]);
      intro Hin; apply in_map_iff in Hin; destruct Hin as (r' & Hid & Hr');
      assert (existsb (fun r'' => String.eqb (EcoHabitLogs.id r'')
                                             (uuid_source w (uuid_drawn w)))
                      (logs w) = true)
        by (apply existsb_exists; exists r'; split;
            [assumption|now apply String.eqb_eq]);
      congruence.
Qed.

(** ** Rows are never removed *)

Lemma grows_refl {A} (R : A -> A -> Prop) (l : list A) :
  (forall a, R a a) -> grows R l l.
Proof.
  intro H. exists l, []. split; [now rewrite app_nil_r|].
  induction l; constructor; auto.
Qed.

Lemma Forall2_compose {A} (R : A -> A -> Prop) (l1 l2 l3 : list A) :
  (forall a b c, R a b -> R b c -> R a c) ->
  Forall2 R l1 l2 -> Forall2 R l2 l3 -> Forall2 R l1 l3.
Proof.
  intros Htrans H12. revert l3. induction H12 as [|a b l1 l2 Hab H12 IH]; intros l3 H23.
  - inversion H23. constructor.
  - inversion H23 as [|b' c l2' l3' Hbc H23']; subst. constructor; eauto.
Qed.

Lemma grows_trans {A} (R : A -> A -> Prop) (l1 l2 l3 : list A) :
  (forall a b c, R a b -> R b c -> R a c) ->
  grows R l1 l2 -> grows R l2 l3 -> grows R l1 l3.
Proof.
  intros Htrans (k1 & a1 & E1 & F1) (k2 & a2 & E2 & F2). subst l2.
  apply Forall2_app_inv_l in F2. destruct F2 as (k2a & k2b & Fa & Fb & Ek). subst k2.
  exists k2a, (k2b ++ a2). split; [rewrite E2; symmetry; apply app_assoc|].
  exact (Forall2_compose R _ _ _ Htrans F1 Fa).
Qed.

Lemma grows_snoc {A} (R : A -> A -> Prop) (l : list A) (x : A) :
  (forall a, R a a) -> grows R l (l ++ [x]).
Proof.
  intro H. exists l, [x]. split; [reflexivity|]. induction l; constructor; auto.
Qed.

Lemma habit_kept_refl (r : EcoHabits.row) : habit_kept r r.
Proof. unfold habit_kept. auto. Qed.

Lemma habit_kept_trans (a b c : EcoHabits.row) :
  habit_kept a b -> habit_kept b c -> habit_kept a c.
Proof.
  unfold habit_kept. intros (H1 & H2 & H3 & H4) (H5 & H6 & H7 & H8).
  repeat split; try congruence. auto.
Qed.

Lemma habits_grow_serve (rq : Request) (w : World) :
  grows habit_kept (habits w) (habits (serve rq w)).
Proof.
  destruct (habits_step rq w)
    as [E|[(r & E & _)|(s & u & h & _ & E & H1 & H2 & H3 & H4)]]; rewrite E.
  - apply grows_refl, habit_kept_refl.
  - apply grows_snoc, habit_kept_refl.
  - exists (update_rows (EcoHabits.apply s) (is_habit u h) (habits w)), [].
    split; [now rewrite app_nil_r|].
    apply Forall2_update_rows. intros r _.
    destruct (is_habit u h r); [|apply habit_kept_refl].
    unfold habit_kept, EcoHabits.apply. simpl. rewrite H1, H2, H3. simpl.
    repeat split. intro Hold. rewrite Hold.
    destruct (EcoHabits.set_isActive s) as [[|]|]; simpl; congruence.
Qed.

Lemma logs_grow_serve (rq : Request) (w : World) :
  grows same_log_identity (logs w) (logs (serve rq w)).
Proof.
  destruct (logs_step rq w)
    as [E|[(input & u & _ & E & _)|(s & u & l & h & _ & E & H1 & H2 & H3 & _)]];
    rewrite E.
  - apply grows_refl, same_log_identity_refl.
  - apply grows_snoc, same_log_identity_refl.
  - exists (update_rows (EcoHabitLogs.apply s) (is_log u l) (logs w)), [].
    split; [now rewrite app_nil_r|].
    now apply update_logs_keeps_identity.
Qed.

(** No sequence of requests removes or reorders a row.  After it, each habit
    that was stored is still there, at its place, with its [id], [userId] and
    [createdAt], and archived if it was archived; each log that was stored is
    still there with its [id], [userId] and [createdAt]; new rows come after
    them. *)
Theorem X_rows_are_never_removed :
  forall (rs : list Request) (w : World),
    grows habit_kept (habits w) (habits (run rs w))
    /\ grows same_log_identity (logs w) (logs (run rs w)).
Proof.
  induction rs as [|rq rs IH]; intro w; simpl.
  - split; [apply grows_refl, habit_kept_refl|apply grows_refl, same_log_identity_refl].
  - destruct (IH (serve rq w)) as [Hh Hl]. split.
    + exact (grows_trans habit_kept _ _ _ habit_kept_trans (habits_grow_serve rq w) Hh).
    + exact (grows_trans same_log_identity _ _ _ same_log_identity_trans
                         (logs_grow_serve rq w) Hl).
Qed.

(** ** Requests of other users do not interfere *)

Lemma filter_snoc_foreign {A} (f : A -> bool) (l : list A) (x : A) :
  f x = false -> filter f (l ++ [x]) = filter f l.
Proof. intro H. rewrite filter_app. simpl. rewrite H. apply app_nil_r. Qed.

Lemma habits_of_update_foreign (s : EcoHabits.values) (u h b : string)
      (rows : list EcoHabits.row) :
  u <> b ->
  EcoHabits.set_userId s = None ->
  filter (fun r => String.eqb (EcoHabits.userId r) b)
         (update_rows (EcoHabits.apply s) (is_habit u h) rows)
  = filter (fun r => String.eqb (EcoHabits.userId r) b) rows.
Proof.
  intros Hub Hs. unfold update_rows. induction rows as [|r rows IH]; simpl; [reflexivity|].
  rewrite IH. destruct (is_habit u h r) eqn:E; [|reflexivity].
  unfold is_habit in E. apply andb_true_iff in E. destruct E as [_ E].
  apply String.eqb_eq in E. unfold EcoHabits.apply. cbn [EcoHabits.userId].
  rewrite Hs. cbn [assign]. rewrite E.
  apply String.eqb_neq in Hub. now rewrite Hub.
Qed.

Lemma logs_of_update_foreign (s : EcoHabitLogs.values) (u l b : string)
      (rows : list EcoHabitLogs.row) :
  u <> b ->
  EcoHabitLogs.set_userId s = None ->
  filter (fun r => String.eqb (EcoHabitLogs.userId r) b)
         (update_rows (EcoHabitLogs.apply s) (is_log u l) rows)
  = filter (fun r => String.eqb (EcoHabitLogs.userId r) b) rows.
Proof.
  intros Hub Hs. unfold update_rows. induction rows as [|r rows IH]; simpl; [reflexivity|].
  rewrite IH. destruct (is_log u l r) eqn:E; [|reflexivity].
  unfold is_log in E. apply andb_true_iff in E. destruct E as [_ E].
  apply String.eqb_eq in E. unfold EcoHabitLogs.apply. cbn [EcoHabitLogs.userId].
  rewrite Hs. cbn [assign]. rewrite E.
  apply String.eqb_neq in Hub. now rewrite Hub.
Qed.

Lemma foreign_request_serve (rq : Request) (w : World) (b : string) :
  caller rq <> Some b ->
  habits_of (serve rq w) b = habits_of w b /\ logs_of (serve rq w) b = logs_of w b.
Proof.
  intro Hc. unfold habits_of, logs_of. split.
  - destruct (habits_step rq w)
      as [E|[(r & E & _ & Hr)|(s & u & h & Hu & E & _ & H2 & _)]]; rewrite E.
    + reflexivity.
    + apply filter_snoc_foreign. apply String.eqb_neq. congruence.
    + apply habits_of_update_foreign; [congruence|exact H2].
  - destruct (logs_step rq w)
      as [E|[(input & u & Hu & E & _)|(s & u & l & h & Hu & E & _ & H2 & _)]]; rewrite E.
    + reflexivity.
    + apply filter_snoc_foreign. cbn [new_log EcoHabitLogs.userId].
      apply String.eqb_neq. congruence.
    + apply logs_of_update_foreign; [congruence|exact H2].
Qed.

(** The habits and the logs of a user are changed by that user's requests
    only: after any sequence of requests none of which is made under the
    identity of user [b] (requests of other users, valid or not, and requests
    without identity), the habits of [b] and the logs of [b] are exactly what
    they were, in the same order. *)
Theorem X_requests_of_others_do_not_interfere :
  forall (rs : list Request) (w : World) (b : string),
    (forall rq, In rq rs -> caller rq <> Some b) ->
    habits_of (run rs w) b = habits_of w b
    /\ logs_of (run rs w) b = logs_of w b.
Proof.
  induction rs as [|rq rs IH]; intros w b Hrs; simpl; [auto|].
  destruct (IH (serve rq w) b) as [Hh Hl].
  { intros rq' Hin. apply Hrs. now right. }
  destruct (foreign_request_serve rq w b) as [Hh' Hl'].
  { apply Hrs. now left. }
  split; congruence.
Qed.

Lemma X_requests_of_others_do_not_interfere_witness :
  (forall rq,
      In rq [(ArchiveHabit {| ArchivePayload.id := Some "H2" |}, Sample.alice);
             (UpsertHabitLog (Sample.log_payload (Some "L2") (Some "H1") None), Sample.alice);
             (UpdateHabit (Sample.habit_payload (Some "H1") (Some "Cycle") None), Sample.alice)] ->
      caller rq <> Some "bob")
  /\ habits_of
       (run [(ArchiveHabit {| ArchivePayload.id := Some "H2" |}, Sample.alice);
             (UpsertHabitLog (Sample.log_payload (Some "L2") (Some "H1") None), Sample.alice);
             (UpdateHabit (Sample.habit_payload (Some "H1") (Some "Cycle") None), Sample.alice)]
            Sample.world) "bob"
     = [Sample.bottle].
Proof.
  assert (H : forall rq,
      In rq [(ArchiveHabit {| ArchivePayload.id := Some "H2" |}, Sample.alice);
             (UpsertHabitLog (Sample.log_payload (Some "L2") (Some "H1") None), Sample.alice);
             (UpdateHabit (Sample.habit_payload (Some "H1") (Some "Cycle") None), Sample.alice)] ->
      caller rq <> Some "bob").
  { intros rq [Hrq|[Hrq|[Hrq|[]]]]; subst rq; discriminate. }
  split; [exact H|].
  exact (proj1 (X_requests_of_others_do_not_interfere _ Sample.world "bob" H)).
Defined.

(** ** Every log belongs to a habit of its user *)

Lemma Forall2_In_left {A B} (P : A -> B -> Prop) (l : list A) (l' : list B) (x : A) :
  Forall2 P l l' -> In x l -> exists y, In y l' /\ P x y.
Proof.
  induction 1 as [|a b l l' Hab HF IH]; simpl; [intros []|].
  intros [Hx|Hx].
  - subst. exists b. auto.
  - destruct (IH Hx) as (y & Hy & Hp). exists y. auto.
Qed.

Lemma owns_habit_serve (rq : Request) (w : World) (u h : string) :
  owns_habit w u h = true -> owns_habit (serve rq w) u h = true.
Proof.
  intro H. apply owns_habit_spec in H. destruct H as (r & Hin & Hid & Huid).
  destruct (habits_grow_serve rq w) as (kept & added & E & HF).
  destruct (Forall2_In_left _ _ _ r HF Hin) as (r' & Hin' & Hid' & Huid' & _).
  apply owns_habit_spec. exists r'. rewrite E, in_app_iff. split; [now left|].
  split; congruence.
Qed.

Lemma references_serve (rq : Request) (w : World) :
  logs_reference_owned_habits w -> logs_reference_owned_habits (serve rq w).
Proof.
  intros Hw l Hl. apply owns_habit_serve.
  destruct (logs_step rq w)
    as [E|[(input & u & _ & E & _ & Hown)|(s & u & i & h & _ & E & _ & H2 & _ & H4 & Hown)]];
    rewrite E in Hl.
  - now apply Hw.
  - rewrite in_app_iff in Hl. simpl in Hl. destruct Hl as [Hl|[Hl|[]]]; [now apply Hw|].
    subst l. exact Hown.
  - unfold update_rows in Hl. apply in_map_iff in Hl. destruct Hl as (r & Hr & Hin).
    destruct (is_log u i r) eqn:Er; subst l; [|now apply Hw].
    unfold is_log in Er. apply andb_true_iff in Er. destruct Er as [_ Er].
    apply String.eqb_eq in Er.
    unfold EcoHabitLogs.apply. cbn [EcoHabitLogs.userId EcoHabitLogs.habitId].
    rewrite H2, H4. cbn [assign]. rewrite Er. exact Hown.
Qed.

(** If every stored log references a habit of the log's own user, then so
    it is after any sequence of requests, whoever makes them: the create path
    and the update path of upsertHabitLog both write a [habitId] checked to
    be the caller's, and no request removes a habit or changes its owner.  In
    particular it holds in every world reached from an empty logs table. *)
Theorem X_logs_reference_habits_of_their_user :
  forall (rs : list Request) (w : World),
    logs_reference_owned_habits w ->
    logs_reference_owned_habits (run rs w).
Proof.
  induction rs as [|rq rs IH]; intros w Hw; simpl; [exact Hw|].
  apply IH. now apply references_serve.
Qed.

Lemma X_logs_reference_habits_of_their_user_witness :
  logs_reference_owned_habits Sample.empty_world
  /\ logs_reference_owned_habits (run Sample.session Sample.empty_world).
Proof.
  assert (H : logs_reference_owned_habits Sample.empty_world)
    by (intros l Hl; destruct Hl).
  split; [exact H|].
  exact (X_logs_reference_habits_of_their_user Sample.session Sample.empty_world H).
Defined.

(** ** Ids *)

(** In every world reached from one where the ids of each table are unique
    and non-empty, they still are, provided crypto.randomUUID() never yields
    the empty string: an insert under an id already in the table is refused
    by the primary key, and no update writes an id. *)
Theorem X_ids_stay_unique_and_nonempty :
  forall (rs : list Request) (w : World),
    uuids_nonempty w ->
    well_formed w ->
    NoDup (map EcoHabits.id (habits (run rs w)))
    /\ NoDup (map EcoHabitLogs.id (logs (run rs w)))
    /\ ~ In EmptyString (map EcoHabits.id (habits (run rs w)))
    /\ ~ In EmptyString (map EcoHabitLogs.id (logs (run rs w))).
Proof.
  intros rs w Huuid Hwf.
  destruct (run_well_formed rs w Huuid Hwf) as [H1 H2 H3 H4]. auto.
Qed.

Lemma sample_uuids_nonempty : uuids_nonempty Sample.world.
Proof. intro n. simpl. discriminate. Qed.

Lemma X_ids_stay_unique_and_nonempty_witness :
  uuids_nonempty Sample.world
  /\ well_formed Sample.world
  /\ NoDup (map EcoHabits.id
                (habits (run [(CreateHabit (Sample.habit_payload None (Some "Walk") None),
                               Sample.bob)] Sample.world))).
Proof.
  split; [exact sample_uuids_nonempty|]. split; [exact sample_world_well_formed|].
  exact (proj1 (X_ids_stay_unique_and_nonempty
                  [(CreateHabit (Sample.habit_payload None (Some "Walk") None), Sample.bob)]
                  Sample.world sample_uuids_nonempty sample_world_well_formed)).
Defined.

(** ** listHabitLogs never shows another user's logs *)

(** Whatever the payload, a listHabitLogs call that returns for a signed-in
    caller returns stored logs of that caller only, with their count, and
    leaves both tables as they were. *)
Theorem X_listHabitLogs_returns_only_the_callers_logs :
  forall (p : option LogFilter.t) (context : ActionAPIContext) (u : User.t) (w : World)
         (result : Envelope (Listing EcoHabitLogs.row)),
    identity context = Some u ->
    outcome (server.listHabitLogs p context) w = Returned result ->
    (forall r, In r (items (data result)) ->
               In r (logs w) /\ EcoHabitLogs.userId r = User.id u)
    /\ total (data result) = List.length (items (data result))
    /\ habits (after (server.listHabitLogs p context) w) = habits w
    /\ logs (after (server.listHabitLogs p context) w) = logs w.
Proof.
  intros p context u w result Hu Hout.
  assert (Hrows : result = listing (logs_of w (User.id u))
                  \/ exists h, result = listing (logs_of_habit w (User.id u) h)).
  { destruct p as [[[h|]]|].
    - destruct (String.eqb h EmptyString) eqn:Eh.
      + apply String.eqb_eq in Eh. subst h. left.
        rewrite (listHabitLogs_unfiltered _ context u w) in Hout by auto.
        congruence.
      + apply String.eqb_neq in Eh. right. exists h.
        destruct (owns_habit w (User.id u) h) eqn:Hown.
        * rewrite (listHabitLogs_owned h context u w Eh Hu Hown) in Hout. congruence.
        * unfold outcome in Hout.
          rewrite (listHabitLogs_not_owned h context u w Eh Hu Hown) in Hout.
          discriminate.
    - left. rewrite (listHabitLogs_unfiltered _ context u w) in Hout by auto. congruence.
    - left. rewrite (listHabitLogs_unfiltered _ context u w) in Hout by auto. congruence. }
  split; [|split; [|split]].
  - intros r Hr. destruct Hrows as [E|[h E]]; subst result; simpl in Hr.
    + now apply In_logs_of.
    + apply In_logs_of_habit in Hr. tauto.
  - destruct Hrows as [E|[h E]]; subst result; reflexivity.
  - unfold_actions; split_cases; reflexivity.
  - unfold_actions; split_cases; reflexivity.
Qed.

Lemma X_listHabitLogs_returns_only_the_callers_logs_witness :
  identity Sample.alice = Some {| User.id := "alice" |}
  /\ outcome (server.listHabitLogs (Some {| LogFilter.habitId := Some EmptyString |})
                                   Sample.alice) Sample.world
     = Returned (listing [Sample.ride])
  /\ (forall r, In r [Sample.ride] ->
                In r (logs Sample.world) /\ EcoHabitLogs.userId r = "alice").
Proof.
  split; [reflexivity|]. split; [reflexivity|].
  exact (proj1 (X_listHabitLogs_returns_only_the_callers_logs
                  (Some {| LogFilter.habitId := Some EmptyString |})
                  Sample.alice {| User.id := "alice" |} Sample.world
                  (listing [Sample.ride]) eq_refl eq_refl)).
Defined.

(** ** Logging, then editing the log, then listing *)

Lemma edit_quantity_accepted (l h : string) (q : number) :
  (0 <= q)%Q ->
  upsertHabitLogSchema (edit_quantity l h q)
  = inr {| LogInput.id := Some l; LogInput.habitId := h; LogInput.logDate := None;
           LogInput.quantity := Some q; LogInput.notes := None |}.
Proof.
  intro Hq. apply nonnegative_spec in Hq.
  unfold upsertHabitLogSchema, edit_quantity, check_nonnegative. simpl. now rewrite Hq.
Qed.

(** A log created by upsertHabitLog can be edited through the id the call
    returned.  With a signed-in caller, a non-empty [habitId] of the caller,
    no [id] in the payload, and a non-empty id from crypto.randomUUID() that
    no log has yet: the first call returns that id with mode "created"; a
    second call with that id, the same [habitId] and a quantity that is not
    negative returns it with mode "updated" and adds no row; and
    listHabitLogs for that habit then returns a log of that id, every log of
    that id it returns having the new quantity. *)
Theorem X_log_created_then_edited_then_listed :
  forall (p : LogPayload.t) (input : LogInput.t) (context : ActionAPIContext)
         (u : User.t) (w : World) (q : number),
    upsertHabitLogSchema p = inr input ->
    LogInput.id input = None ->
    identity context = Some u ->
    owns_habit w (User.id u) (LogInput.habitId input) = true ->
    LogInput.habitId input <> EmptyString ->
    next_uuid_unused w ->
    uuid_source w (uuid_drawn w) <> EmptyString ->
    (0 <= q)%Q ->
    let l := uuid_source w (uuid_drawn w) in
    let h := LogInput.habitId input in
    let w1 := after (server.upsertHabitLog p context) w in
    let w2 := after (server.upsertHabitLog (edit_quantity l h q) context) w1 in
    outcome (server.upsertHabitLog p context) w
    = Returned (ok {| logId := l; mode := created |})
    /\ outcome (server.upsertHabitLog (edit_quantity l h q) context) w1
       = Returned (ok {| logId := l; mode := updated |})
    /\ map EcoHabitLogs.id (logs w2) = map EcoHabitLogs.id (logs w) ++ [l]
    /\ exists rows,
         outcome (server.listHabitLogs (Some {| LogFilter.habitId := Some h |}) context) w2
         = Returned (listing rows)
         /\ (exists r, In r rows /\ EcoHabitLogs.id r = l
                       /\ EcoHabitLogs.quantity r = Some q)
         /\ (forall r, In r rows -> EcoHabitLogs.id r = l ->
                       EcoHabitLogs.quantity r = Some q).
Proof.
  intros p input context u w q Hp Hid Hu Hown Hh Hfresh Hl Hq l h w1 w2.
  assert (Hnone : if_truthy (LogInput.id input) = None) by (rewrite Hid; reflexivity).
  destruct (upsertHabitLog_create_path p input context u w Hp Hu Hown Hnone Hfresh)
    as (Hout1 & Hlogs1 & Hhabits1 & _).
  fold w1 in Hlogs1, Hhabits1. fold l in Hout1.
  assert (Hown1 : owns_habit w1 (User.id u) h = true)
    by (unfold owns_habit; rewrite Hhabits1; exact Hown).
  assert (Hlog1 : owns_log w1 (User.id u) l = true).
  { apply owns_log_spec. exists (new_log input (User.id u) w).
    rewrite Hlogs1, in_app_iff. simpl. auto. }
  pose proof (edit_quantity_accepted l h q Hq) as Hp2.
  destruct (upsertHabitLog_update_path (edit_quantity l h q) _ context u l w1
              Hp2 Hu Hown1 (if_truthy_nonempty l Hl) Hlog1)
    as (existing & _ & _ & Heq).
  assert (Hlogs2 : logs w2
                   = update_rows
                       (EcoHabitLogs.apply
                          {| EcoHabitLogs.set_id := None;
                             EcoHabitLogs.set_habitId := Some h;
                             EcoHabitLogs.set_userId := None;
                             EcoHabitLogs.set_logDate :=
                               Some (EcoHabitLogs.logDate existing);
                             EcoHabitLogs.set_quantity := Some q;
                             EcoHabitLogs.set_notes := None;
                             EcoHabitLogs.set_createdAt := None |})
                       (is_log (User.id u) l) (logs w1))
    by (unfold w2, after; rewrite Heq; reflexivity).
  assert (Hhabits2 : habits w2 = habits w1)
    by (unfold w2, after; rewrite Heq; reflexivity).
  assert (Hown2 : owns_habit w2 (User.id u) h = true)
    by (unfold owns_habit; rewrite Hhabits2; exact Hown1).
  split; [exact Hout1|]. split.
  { unfold outcome. rewrite Heq. reflexivity. }
  split.
  { rewrite Hlogs2, update_logs_keeps_ids by reflexivity.
    rewrite Hlogs1, map_app. reflexivity. }
  eexists. split; [apply (listHabitLogs_owned h context u w2 Hh Hu Hown2)|]. split.
  - eexists. split; [apply In_logs_of_habit; split|].
    + rewrite Hlogs2. unfold update_rows. apply in_map.
      rewrite Hlogs1, in_app_iff. right. left. reflexivity.
    + assert (E : is_log (User.id u) l (new_log input (User.id u) w) = true)
        by (unfold is_log, new_log; cbn [EcoHabitLogs.id EcoHabitLogs.userId];
            fold l; now rewrite !String.eqb_refl).
      rewrite E. split; reflexivity.
    + assert (E : is_log (User.id u) l (new_log input (User.id u) w) = true)
        by (unfold is_log, new_log; cbn [EcoHabitLogs.id EcoHabitLogs.userId];
            fold l; now rewrite !String.eqb_refl).
      rewrite E. split; reflexivity.
  - intros r Hr Hrid. apply In_logs_of_habit in Hr. destruct Hr as (Hin & Hruid & _).
    rewrite Hlogs2 in Hin. unfold update_rows in Hin. apply in_map_iff in Hin.
    destruct Hin as (r0 & Hr0 & _).
    destruct (is_log (User.id u) l r0) eqn:E; subst r; [reflexivity|].
    unfold is_log in E. rewrite Hrid, Hruid, !String.eqb_refl in E. discriminate.
Qed.

Lemma X_log_created_then_edited_then_listed_witness :
  owns_habit Sample.world "alice" "H1" = true
  /\ next_uuid_unused Sample.world
  /\ (0 <= 2 # 1)%Q
  /\ outcome (server.upsertHabitLog (edit_quantity "U0" "H1" (2 # 1)) Sample.alice)
             (after (server.upsertHabitLog (Sample.log_payload None (Some "H1") (Some (1 # 1)))
                                           Sample.alice) Sample.world)
     = Returned (ok {| logId := "U0"; mode := updated |}).
Proof.
  assert (Hfresh : next_uuid_unused Sample.world)
    by (unfold next_uuid_unused; simpl; intuition discriminate).
  assert (Hq : (0 <= 2 # 1)%Q) by (intro H; discriminate H).
  assert (Hh : "H1" <> EmptyString) by discriminate.
  assert (Hl : uuid_source Sample.world (uuid_drawn Sample.world) <> EmptyString)
    by discriminate.
  split; [reflexivity|]. split; [exact Hfresh|]. split; [exact Hq|].
  destruct (X_log_created_then_edited_then_listed
              (Sample.log_payload None (Some "H1") (Some (1 # 1))) _
              Sample.alice {| User.id := "alice" |} Sample.world (2 # 1)
              eq_refl eq_refl eq_refl eq_refl Hh Hfresh Hl Hq)
    as (_ & Hupdated & _).
  exact Hupdated.
Defined.

(** ** Logging on an archived habit *)

(** upsertHabitLog does not look at [isActive]: once archiveHabit has
    succeeded on a habit, the caller can still log an occurrence of it (the
    id from crypto.randomUUID() being new to the logs table). *)
Theorem X_archived_habit_can_still_be_logged :
  forall (h : string) (context : ActionAPIContext) (u : User.t) (w : World)
         (result : Envelope HabitId) (p : LogPayload.t) (input : LogInput.t),
    identity context = Some u ->
    outcome (server.archiveHabit {| ArchivePayload.id := Some h |} context) w
    = Returned result ->
    upsertHabitLogSchema p = inr input ->
    LogInput.habitId input = h ->
    LogInput.id input = None ->
    next_uuid_unused
      (after (server.archiveHabit {| ArchivePayload.id := Some h |} context) w) ->
    exists l,
      outcome (server.upsertHabitLog p context)
              (after (server.archiveHabit {| ArchivePayload.id := Some h |} context) w)
      = Returned (ok {| logId := l; mode := created |}).
Proof.
  intros h context u w result p input Hu Harch Hp Hh Hid Hfresh.
  destruct (archiveHabit_archives h context u w result Hu Harch)
    as [[(r & Hin & Hrid & Hruid) _] _].
  set (w1 := after _ w) in *.
  assert (Hown : owns_habit w1 (User.id u) (LogInput.habitId input) = true).
  { apply owns_habit_spec. exists r. rewrite Hh. auto. }
  assert (Hnone : if_truthy (LogInput.id input) = None) by (rewrite Hid; reflexivity).
  destruct (upsertHabitLog_create_path p input context u w1 Hp Hu Hown Hnone Hfresh)
    as (Hout & _).
  eexists. exact Hout.
Qed.

Lemma X_archived_habit_can_still_be_logged_witness :
  outcome (server.archiveHabit {| ArchivePayload.id := Some "H1" |} Sample.alice)
          Sample.world
  = Returned (ok {| habitId := "H1" |})
  /\ exists l,
       outcome (server.upsertHabitLog (Sample.log_payload None (Some "H1") None) Sample.alice)
               (after (server.archiveHabit {| ArchivePayload.id := Some "H1" |} Sample.alice)
                      Sample.world)
       = Returned (ok {| logId := l; mode := created |}).
Proof.
  split; [reflexivity|].
  apply (X_archived_habit_can_still_be_logged
           "H1" Sample.alice {| User.id := "alice" |} Sample.world
           (ok {| habitId := "H1" |})
           (Sample.log_payload None (Some "H1") None) _
           eq_refl eq_refl eq_refl eq_refl eq_refl).
  unfold next_uuid_unused. simpl. intuition discriminate.
Defined.

(** ** The statements of a call *)

Ltac journal_candidate reads writes :=
  solve [ exists reads, writes;
          cbn [app]; rewrite <- ?app_assoc, ?app_nil_r; cbn [app];
          (split; [reflexivity|]);
          (split; [repeat constructor|]);
          (split; [cbn [List.length]; lia|]);
          (split; [repeat constructor|]);
          (split; [cbn [List.length]; lia|]);
          let Hw := fresh in
          intro Hw; first [discriminate Hw | split; reflexivity] ].

Ltac journal_leaf :=
  first
    [ journal_candidate (@nil Statement) (@nil Statement)
    | journal_candidate [SELECT T_EcoHabits] (@nil Statement)
    | journal_candidate [SELECT T_EcoHabitLogs] (@nil Statement)
    | journal_candidate [SELECT T_EcoHabits; SELECT T_EcoHabitLogs] (@nil Statement)
    | journal_candidate (@nil Statement) [INSERT T_EcoHabits]
    | journal_candidate [SELECT T_EcoHabits] [UPDATE T_EcoHabits]
    | journal_candidate [SELECT T_EcoHabits] [INSERT T_EcoHabitLogs]
    | journal_candidate [SELECT T_EcoHabits; SELECT T_EcoHabitLogs] [UPDATE T_EcoHabitLogs] ].

(** A call issues at most two SELECTs and then at most one INSERT or
    UPDATE, which is its last statement; a call that issues no INSERT and no
    UPDATE leaves both tables as they were. *)
Theorem X_a_call_writes_at_most_once :
  forall (rq : Request) (w : World),
    exists reads writes,
      journal (serve rq w) = journal w ++ reads ++ writes
      /\ Forall (fun s => is_select s = true) reads
      /\ (List.length reads <= 2)%nat
      /\ Forall (fun s => is_select s = false) writes
      /\ (List.length writes <= 1)%nat
      /\ (writes = [] ->
          habits (serve rq w) = habits w /\ logs (serve rq w) = logs w).
Proof.
  intros [[p|p|p|p|p|p] context] w; unfold_actions; split_cases; journal_leaf.
Qed.

Lemma X_a_call_writes_at_most_once_witness :
  exists reads writes,
    journal (serve (ListMyHabits {| ListHabitsPayload.includeInactive := None |},
                    Sample.alice) Sample.world)
    = journal Sample.world ++ reads ++ writes
    /\ Forall (fun s => is_select s = true) reads
    /\ (List.length reads <= 2)%nat
    /\ Forall (fun s => is_select s = false) writes
    /\ (List.length writes <= 1)%nat
    /\ (writes = [] ->
        habits (serve (ListMyHabits {| ListHabitsPayload.includeInactive := None |},
                       Sample.alice) Sample.world) = habits Sample.world
        /\ logs (serve (ListMyHabits {| ListHabitsPayload.includeInactive := None |},
                        Sample.alice) Sample.world) = logs Sample.world).
Proof.
  exact (X_a_call_writes_at_most_once
           (ListMyHabits {| ListHabitsPayload.includeInactive := None |}, Sample.alice)
           Sample.world).
Defined.

(** ** An id that is taken *)

(** When the id that crypto.randomUUID() yields is already the id of a row,
    the insert is refused: createHabit (for habits) and the create path of
    upsertHabitLog (for logs) are answered with the constraint error and the
    table is as it was; no stored row is overwritten. *)
Theorem X_taken_id_is_refused :
  forall (context : ActionAPIContext) (u : User.t) (w : World),
    identity context = Some u ->
    (forall p input,
        habitFieldsSchema p = inr input ->
        In (uuid_source w (uuid_drawn w)) (map EcoHabits.id (habits w)) ->
        outcome (server.createHabit p context) w = Threw (ConstraintError T_EcoHabits)
        /\ habits (after (server.createHabit p context) w) = habits w)
    /\ (forall p input,
           upsertHabitLogSchema p = inr input ->
           owns_habit w (User.id u) (LogInput.habitId input) = true ->
           if_truthy (LogInput.id input) = None ->
           In (uuid_source w (uuid_drawn w)) (map EcoHabitLogs.id (logs w)) ->
           outcome (server.upsertHabitLog p context) w
           = Threw (ConstraintError T_EcoHabitLogs)
           /\ logs (after (server.upsertHabitLog p context) w) = logs w).
Proof.
  intros context u w Hu. split.
  - intros p input Hp Hin.
    assert (E : existsb (fun r' => String.eqb (EcoHabits.id r')
                                              (uuid_source w (uuid_drawn w)))
                        (habits w) = true).
    { apply in_map_iff in Hin. destruct Hin as (r & Hid & Hr).
      apply existsb_exists. exists r. split; [exact Hr|now apply String.eqb_eq]. }
    unfold_actions. rewrite Hp, Hu. world_simpl. rewrite E. auto.
  - intros p input Hp Hown Hnone Hin.
    assert (E : existsb (fun r' => String.eqb (EcoHabitLogs.id r')
                                              (uuid_source w (uuid_drawn w)))
                        (logs w) = true).
    { apply in_map_iff in Hin. destruct Hin as (r & Hid & Hr).
      apply existsb_exists. exists r. split; [exact Hr|now apply String.eqb_eq]. }
    destruct (getHabitForUser_owned _ _ _ Hown) as (r & Hr & _).
    unfold outcome, after, server.upsertHabitLog, defineAction. rewrite Hp.
    unfold bind. rewrite (requireUser_with_identity _ _ _ Hu), Hr, Hnone.
    unfold randomUUID, new_Date, db.insert_EcoHabitLogs, insert_row.
    destruct (LogInput.logDate input); cbn -[existsb String.eqb];
      rewrite E; cbn; auto.
Qed.

Lemma X_taken_id_is_refused_witness :
  identity Sample.alice = Some {| User.id := "alice" |}
  /\ In (uuid_source colliding_world (uuid_drawn colliding_world))
        (map EcoHabits.id (habits colliding_world))
  /\ outcome (server.createHabit (Sample.habit_payload None (Some "Walk") None) Sample.alice)
             colliding_world
     = Threw (ConstraintError T_EcoHabits)
  /\ habits (after (server.createHabit (Sample.habit_payload None (Some "Walk") None)
                                       Sample.alice) colliding_world)
     = habits colliding_world.
Proof.
  assert (Hin : In (uuid_source colliding_world (uuid_drawn colliding_world))
                   (map EcoHabits.id (habits colliding_world)))
    by (left; reflexivity).
  split; [reflexivity|]. split; [exact Hin|].
  exact (proj1 (X_taken_id_is_refused Sample.alice {| User.id := "alice" |}
                                      colliding_world eq_refl)
               (Sample.habit_payload None (Some "Walk") None) _ eq_refl Hin).
Defined.

(** ** The lookup of a habit *)

(** getHabitForUser issues one SELECT on the habits and writes nothing.  It
    returns null exactly when the user has no habit of that id, and otherwise
    a stored habit that has that id and belongs to that user; it never
    returns a habit of another user. *)
Theorem X_getHabitForUser_returns_an_owned_habit_or_null :
  forall (h u : string) (w : World),
    exists found,
      getHabitForUser h u w = (Returned found, issue (SELECT T_EcoHabits) w)
      /\ (found = None <-> owns_habit w u h = false)
      /\ (forall r, found = Some r ->
                    In r (habits w) /\ EcoHabits.id r = h /\ EcoHabits.userId r = u).
Proof.
  intros h u w. destruct (owns_habit w u h) eqn:Hown.
  - destruct (getHabitForUser_owned w u h Hown) as (r & Hr & Hin & Hid & Huid).
    exists (Some r). split; [exact Hr|]. split.
    + split; discriminate.
    + intros r' Hr'. inversion Hr'; subst r'. auto.
  - exists None. split; [exact (getHabitForUser_not_owned w u h Hown)|]. split.
    + tauto.
    + intros r Hr. discriminate Hr.
Qed.

Lemma X_getHabitForUser_returns_an_owned_habit_or_null_witness :
  exists found,
    getHabitForUser "H2" "alice" Sample.world
    = (Returned found, issue (SELECT T_EcoHabits) Sample.world)
    /\ (found = None <-> owns_habit Sample.world "alice" "H2" = false)
    /\ (forall r, found = Some r ->
                  In r (habits Sample.world)
                  /\ EcoHabits.id r = "H2" /\ EcoHabits.userId r = "alice").
Proof.
  exact (X_getHabitForUser_returns_an_owned_habit_or_null "H2" "alice" Sample.world).
Defined.
